(** * pswfa-app: the membership backend (server.js, models/Member.js)

    A shallow embedding of the Express application: every route handler of
    [server.js] is a function in a small state-and-exception monad over a
    [World] made of the document store, the upload directory and the
    environment the process runs in (clock, store faults, mail relay,
    delivery of upload parts after a failure).
    The libraries the server calls (jsonwebtoken, bcrypt, the Date
    constructor) are an interface, [Platform], with the few laws their
    documentation promises; multer and mongoose are modelled by the
    behaviour the handlers rely on. *)

From stdpp Require Import gmap strings list pretty sorting.
From Stdlib Require Import ZArith Lia Ascii String.

Open Scope string_scope.
Open Scope Z_scope.

(** ** JavaScript primitives used by the handlers

    Strings are byte strings: the case mapping and the white space of
    [parseInt] are the ASCII ones. Request values are [option string]:
    [None] is [undefined]. *)
Module JS.

(** [!v] is false exactly for a non-empty string. *)
Definition truthy (v : option string) : bool :=
  match v with
  | Some (String _ _) => true
  | _ => false
  end.

Definition str (v : option string) : string := default "" v.

Definition lower_ascii (c : ascii) : ascii :=
  let n := nat_of_ascii c in
  if ((65 <=? n) && (n <=? 90))%nat then ascii_of_nat (n + 32) else c.

Fixpoint toLowerCase (s : string) : string :=
  match s with
  | EmptyString => EmptyString
  | String c r => String (lower_ascii c) (toLowerCase r)
  end.

(** [s.includes(q)] *)
Fixpoint includes (s q : string) : bool :=
  String.prefix q s ||
  match s with
  | EmptyString => false
  | String _ r => includes r q
  end.

(** [s.split(sep)] for a one-character separator. *)
Fixpoint split (sep : ascii) (s : string) : list string :=
  match s with
  | EmptyString => [EmptyString]
  | String c r =>
      if Ascii.eqb c sep then EmptyString :: split sep r
      else match split sep r with
           | h :: t => String c h :: t
           | [] => [String c EmptyString]
           end
  end.

Definition is_space (c : ascii) : bool :=
  let n := nat_of_ascii c in
  ((n =? 32) || ((9 <=? n) && (n <=? 13)))%nat.

Fixpoint trimStart (s : string) : string :=
  match s with
  | EmptyString => EmptyString
  | String c r => if is_space c then trimStart r else s
  end.

Definition digit_of (radix : Z) (c : ascii) : option Z :=
  let n := Z.of_nat (nat_of_ascii c) in
  let v := if (48 <=? n) && (n <=? 57) then Some (n - 48)
           else if (97 <=? n) && (n <=? 122) then Some (n - 87)
           else if (65 <=? n) && (n <=? 90) then Some (n - 55)
           else None in
  match v with
  | Some d => if d <? radix then Some d else None
  | None => None
  end.

(** The longest prefix of radix digits, as a number; [None] when it is
    empty. *)
Fixpoint digits (radix : Z) (s : string) (acc : option Z) : option Z :=
  match s with
  | EmptyString => acc
  | String c r =>
      match digit_of radix c with
      | Some d =>
          digits radix r
            (Some (match acc with Some a => a * radix + d | None => d end))
      | None => acc
      end
  end.

(** The numbers [parseInt] can return: not-a-number, an integer-valued
    double, or an infinity. *)
Inductive number :=
  | NaN
  | Num (z : Z)
  | Infinity (negative : bool).

(** The Number value of a non-negative integer: the integer itself below
    2^53; from there on the nearest double, ties to the even mantissa;
    Infinity once that reaches 2^1024. *)
Definition toNumber (n : Z) : number :=
  if n <? 2 ^ 53 then Num n
  else
    let e := Z.log2 n - 52 in
    let q := n / 2 ^ e in
    let r := n mod 2 ^ e in
    let half := 2 ^ (e - 1) in
    let q := if (half <? r) || ((r =? half) && Z.odd q) then q + 1 else q in
    if 2 ^ 1024 <=? q * 2 ^ e then Infinity false else Num (q * 2 ^ e).

(** [parseInt(s)] without a radix argument: the sign times the Number
    value of the longest digit prefix (correctly rounded, as V8 computes
    it), [NaN] when there is no digit. *)
Definition parseInt (s : string) : number :=
  let s := trimStart s in
  let '(sign, s) :=
    match s with
    | String c r =>
        if Ascii.eqb c "-" then (-1, r)
        else if Ascii.eqb c "+" then (1, r)
        else (1, s)
    | EmptyString => (1, s)
    end in
  let '(radix, s) :=
    match s with
    | String c0 (String c1 r) =>
        if Ascii.eqb c0 "0" && (Ascii.eqb c1 "x" || Ascii.eqb c1 "X")
        then (16, r)
        else (10, s)
    | _ => (10, s)
    end in
  match digits radix s None with
  | None => NaN
  | Some n =>
      match toNumber n with
      | Num v => Num (sign * v)
      | Infinity _ => Infinity (sign <? 0)
      | NaN => NaN
      end
  end.

(** [n + ''] for an integer. *)
Definition numberToString (n : Z) : string := pretty n.

End JS.

(** ** Documents *)

(** Modelled from the spec: models/User.js is not among the sources; the
    spec gives a user an email, a hashed password and a role. *)
Module User.
Record t := mk { _id : nat; email : string; password : string; role : string }.
End User.

(** models/Member.js, [memberSchema]: the type of a document that passed
    validation. *)
Module Member.
Record t := mk {
  _id : nat;
  surname : string;
  otherNames : string;
  dateOfBirth : Z;
  gender : string;
  occupation : string;
  qualification : string;
  localGovernmentOfOrigin : string;
  residentialAddress : string;
  phone : string;
  nextOfKin : string;
  enrollmentStatus : string;
  dateEnrollment : Z;
  shortFarmHistory : string;
  refereeLgaCoordinator : option string;
  refereeGroupCoordinator : option string;
  passportPhotos : list string;
  cropVariety : string;
  farmingExperience : JS.number;
  irrigationMethod : string;
  membershipStatus : string;
  location : string;
  farmSize : string;
  contact : string
}.

(** The object literal [memberData] the create handler builds: strings
    as they came in the body, [new Date(..)] ([None]: Invalid Date) and
    [parseInt(..)]. *)
Record data := mkData {
  d_surname : option string;
  d_otherNames : option string;
  d_dateOfBirth : option Z;
  d_gender : option string;
  d_occupation : option string;
  d_qualification : option string;
  d_localGovernmentOfOrigin : option string;
  d_residentialAddress : option string;
  d_phone : option string;
  d_nextOfKin : option string;
  d_enrollmentStatus : option string;
  d_dateEnrollment : option Z;
  d_shortFarmHistory : option string;
  d_refereeLgaCoordinator : option string;
  d_refereeGroupCoordinator : option string;
  d_passportPhotos : option (list string);
  d_cropVariety : option string;
  d_farmingExperience : JS.number;
  d_irrigationMethod : option string;
  d_membershipStatus : option string;
  d_location : option string;
  d_farmSize : option string;
  d_contact : option string
}.

Definition gender_enum : list string := ["Not specified"; "Male"; "Female"].
Definition enrollmentStatus_enum : list string := ["Direct Farmer"; "Group Farmer"].
Definition irrigationMethod_enum : list string := ["Rainfed"; "Drip"; "Flood"].
Definition membershipStatus_enum : list string := ["Active"; "Inactive"; "Pending"].

(** [{ type: String, required: true }]: present and not empty. *)
Definition required (v : option string) : option string :=
  if JS.truthy v then v else None.

(** [{ type: String, required: true, enum: e }] *)
Definition required_enum (e : list string) (v : option string) : option string :=
  match required v with
  | Some s => if bool_decide (s ∈ e) then Some s else None
  | None => None
  end.

(** [{ type: Number, required: true }]: any number but NaN. *)
Definition number (v : JS.number) : option JS.number :=
  match v with
  | JS.NaN => None
  | _ => Some v
  end.

(** Schema validation as [save] runs it, path by path in the order of
    the schema; [None] is a ValidationError. *)
Definition validate (id : nat) (d : data) : option t :=
  surname ← required (d_surname d);
  otherNames ← required (d_otherNames d);
  dateOfBirth ← d_dateOfBirth d;
  gender ← required_enum gender_enum (d_gender d);
  occupation ← required (d_occupation d);
  qualification ← required (d_qualification d);
  localGovernmentOfOrigin ← required (d_localGovernmentOfOrigin d);
  residentialAddress ← required (d_residentialAddress d);
  phone ← required (d_phone d);
  nextOfKin ← required (d_nextOfKin d);
  enrollmentStatus ← required_enum enrollmentStatus_enum (d_enrollmentStatus d);
  dateEnrollment ← d_dateEnrollment d;
  shortFarmHistory ← required (d_shortFarmHistory d);
  cropVariety ← required (d_cropVariety d);
  farmingExperience ← number (d_farmingExperience d);
  irrigationMethod ← required_enum irrigationMethod_enum (d_irrigationMethod d);
  membershipStatus ←
    required_enum membershipStatus_enum
      (match d_membershipStatus d with
       | None => Some "Pending"
       | v => v
       end);
  location ← required (d_location d);
  farmSize ← required (d_farmSize d);
  contact ← required (d_contact d);
  Some (mk id surname otherNames dateOfBirth gender occupation qualification
           localGovernmentOfOrigin residentialAddress phone nextOfKin
           enrollmentStatus dateEnrollment shortFarmHistory
           (d_refereeLgaCoordinator d) (d_refereeGroupCoordinator d)
           (default [] (d_passportPhotos d))
           cropVariety farmingExperience irrigationMethod membershipStatus
           location farmSize contact).
End Member.

(** Modelled from the spec: models/News.js is not among the sources; the
    spec gives a news item a title, a description, optional image and
    video references and a creation timestamp. *)
Module News.
Record t := mk {
  _id : nat;
  title : string;
  description : string;
  imageUrl : option string;
  videoUrl : option string;
  createdAt : Z
}.

(** The object literal [newsData] of the create and update handlers. *)
Record data := mkData {
  d_title : string;
  d_description : string;
  d_imageUrl : option string;
  d_videoUrl : option string
}.
End News.

(** Modelled from the spec: models/Contact.js is not among the sources;
    the spec gives a contact a name, an email, a message and a timestamp. *)
Module Contact.
Record t := mk {
  _id : nat;
  name : string;
  email : string;
  message : string;
  timestamp : Z
}.
End Contact.

(** ** The libraries the server calls *)

(** What [jwt.verify] hands to its callback: the signed claims. *)
Record JwtPayload := mkJwt {
  jwt_id : nat;
  jwt_role : string;
  jwt_iat : Z;
  jwt_exp : Z
}.

(** jsonwebtoken, bcrypt and the Date constructor. Times given to the
    token functions are in seconds. [bcrypt_hash] takes the cost and the
    randomness its salt is drawn from. *)
Class Platform := {
  jwt_sign : nat → string → string → Z → Z → string;
  jwt_verify : string → string → Z → option JwtPayload;
  bcrypt_hash : string → nat → nat → string;
  bcrypt_compare : string → string → bool;
  Date_parse : string → option Z
}.

(** The documented behaviour of these libraries that the properties below
    depend on: a token verifies under the key that signed it until its
    expiry time and never from then on; a password matches its own hash. *)
Class PlatformLaws (P : Platform) : Prop := {
  jwt_verify_live : ∀ id role key ttl t now,
    now < t + ttl →
    jwt_verify (jwt_sign id role key ttl t) key now
    = Some (mkJwt id role t (t + ttl));
  jwt_verify_expired : ∀ id role key ttl t now,
    t + ttl ≤ now →
    jwt_verify (jwt_sign id role key ttl t) key now = None;
  bcrypt_compare_hash : ∀ password rounds salt,
    bcrypt_compare password (bcrypt_hash password rounds salt) = true
}.

(** [process.env] *)
Record Config := mkConfig { env_JWT_SECRET : option string }.

Definition JWT_SECRET (cfg : Config) : string :=
  if JS.truthy (env_JWT_SECRET cfg) then JS.str (env_JWT_SECRET cfg)
  else "your_jwt_secret_key".

(** [{ expiresIn: '1h' }], in seconds. *)
Definition expiresIn : Z := 3600.

(** ** The world a request runs in *)

Inductive Collection := Users | Members | NewsItems | Contacts.

(** Every access to a collaborator leaves an event. *)
Inductive Event :=
  | DbRead (c : Collection)
  | DbWrite (c : Collection)
  | FsWrite (path : string)
  | FsUnlink (path : string)
  | MailSend.

Record Db := mkDb {
  users : list User.t;
  members : list Member.t;
  news : list News.t;
  contacts : list Contact.t;
  next_id : nat
}.

(** What the process does not control: the clock (milliseconds), whether
    the next store operations fail ([true]: the operation throws; an empty
    schedule: none fails), whether the mail relay accepts a message, the
    randomness bcrypt draws its salt from, and, once an upload has
    failed, which of the parts that follow the failed one are still
    written and left behind ([true]: this one is; an empty schedule:
    none). The last depends on the multer release and on how the request
    arrives in chunks: the parser may be detached at once, or go on
    delivering parts after the clean-up has run. *)
Record Env := mkEnv {
  clock : Z;
  db_faults : list bool;
  relay_up : bool;
  entropy : nat;
  late_parts : list bool
}.

Record World := mkWorld {
  db : Db;
  disk : gset string;
  trace : list Event;
  env : Env
}.

Definition set_db (d : Db) (w : World) : World :=
  mkWorld d (disk w) (trace w) (env w).
Definition set_disk (f : gset string) (w : World) : World :=
  mkWorld (db w) f (trace w) (env w).
Definition set_env (e : Env) (w : World) : World :=
  mkWorld (db w) (disk w) (trace w) e.
Definition log (ev : Event) (w : World) : World :=
  mkWorld (db w) (disk w) (trace w ++ [ev]) (env w).
Definition set_faults (fs : list bool) (e : Env) : Env :=
  mkEnv (clock e) fs (relay_up e) (entropy e) (late_parts e).

Definition set_users (l : list User.t) (d : Db) : Db :=
  mkDb l (members d) (news d) (contacts d) (next_id d).
Definition set_members (l : list Member.t) (d : Db) : Db :=
  mkDb (users d) l (news d) (contacts d) (next_id d).
Definition set_news (l : list News.t) (d : Db) : Db :=
  mkDb (users d) (members d) l (contacts d) (next_id d).
Definition set_contacts (l : list Contact.t) (d : Db) : Db :=
  mkDb (users d) (members d) (news d) l (next_id d).
Definition set_next_id (n : nat) (d : Db) : Db :=
  mkDb (users d) (members d) (news d) (contacts d) n.

(** ** State and exceptions *)

Inductive Error := StoreError | ValidationError | MailError | TypeError.

Inductive Result (A : Type) :=
  | Val (a : A)
  | Exn (e : Error).
Arguments Val {A} a.
Arguments Exn {A} e.

Definition M (A : Type) : Type := World → Result A * World.

Definition ret {A} (a : A) : M A := λ w, (Val a, w).

Definition bind {A B} (m : M A) (k : A → M B) : M B :=
  λ w, match m w with
       | (Val a, w') => k a w'
       | (Exn e, w') => (Exn e, w')
       end.

Definition throw {A} (e : Error) : M A := λ w, (Exn e, w).

(** [try { m } catch (error) { h error }] *)
Definition try_catch {A} (m : M A) (h : Error → M A) : M A :=
  λ w, match m w with
       | (Val a, w') => (Val a, w')
       | (Exn e, w') => h e w'
       end.

Definition gets {A} (f : World → A) : M A := λ w, (Val (f w), w).
Definition modify (f : World → World) : M unit := λ w, (Val tt, f w).

Declare Scope m_scope.
Delimit Scope m_scope with M.
Notation "x <- m ;; k" := (bind m (λ x, k))
  (at level 100, m at next level, right associativity) : m_scope.
Notation "m ;; k" := (bind m (λ _, k))
  (at level 100, right associativity) : m_scope.
Open Scope m_scope.

(** ** The document store

    Each operation is logged, then fails if the schedule says so. *)
Definition db_call {A} (ev : Event) (op : Db → Result A * Db) : M A :=
  λ w,
    let w := log ev w in
    match db_faults (env w) with
    | true :: fs => (Exn StoreError, set_env (set_faults fs (env w)) w)
    | false :: fs =>
        let '(r, d) := op (db w) in
        (r, set_db d (set_env (set_faults fs (env w)) w))
    | [] =>
        let '(r, d) := op (db w) in
        (r, set_db d w)
    end.

(** [new Model(..)]: the driver generates the document id. *)
Definition new_id : M nat :=
  λ w, (Val (next_id (db w)), set_db (set_next_id (S (next_id (db w))) (db w)) w).

Definition Date_now : M Z := gets (λ w, clock (env w)).

Definition by_email (e : option string) (u : User.t) : bool :=
  match e with
  | Some e => String.eqb (User.email u) e
  | None => false
  end.

(** [User.findOne({ email })] *)
Definition User_findOne (email : option string) : M (option User.t) :=
  db_call (DbRead Users) (λ d, (Val (find (by_email email) (users d)), d)).

(** [User.findById(id)] *)
Definition User_findById (id : option nat) : M (option User.t) :=
  db_call (DbRead Users)
    (λ d, (Val (id ← id; find (λ u, Nat.eqb (User._id u) id) (users d)), d)).

(** [user.save()]; the store refuses a second account for an email. *)
Definition User_save (u : User.t) : M unit :=
  db_call (DbWrite Users)
    (λ d, match find (by_email (Some (User.email u))) (users d) with
          | Some _ => (Exn StoreError, d)
          | None => (Val tt, set_users (users d ++ [u]) d)
          end).

(** [Member.find()] *)
Definition Member_find : M (list Member.t) :=
  db_call (DbRead Members) (λ d, (Val (members d), d)).

(** [Member.findById(id)] *)
Definition Member_findById (id : nat) : M (option Member.t) :=
  db_call (DbRead Members)
    (λ d, (Val (find (λ m, Nat.eqb (Member._id m) id) (members d)), d)).

(** [new Member(memberData)] then [member.save()]: validation, then the
    insertion. *)
Definition Member_save (id : nat) (data : Member.data) : M Member.t :=
  db_call (DbWrite Members)
    (λ d, match Member.validate id data with
          | None => (Exn ValidationError, d)
          | Some m => (Val m, set_members (members d ++ [m]) d)
          end).

Definition newer (a b : News.t) : Prop := News.createdAt b ≤ News.createdAt a.

#[global] Instance newer_dec (a b : News.t) : Decision (newer a b) :=
  Z.le_dec (News.createdAt b) (News.createdAt a).

(** [News.find().sort({ createdAt: -1 })] *)
Definition News_find_sorted : M (list News.t) :=
  db_call (DbRead NewsItems) (λ d, (Val (merge_sort newer (news d)), d)).

Definition by_news_id (id : nat) (n : News.t) : bool := Nat.eqb (News._id n) id.

(** [News.findById(id)] *)
Definition News_findById (id : nat) : M (option News.t) :=
  db_call (DbRead NewsItems) (λ d, (Val (find (by_news_id id) (news d)), d)).

(** [news.save()] of a new document; [createdAt] is the time of creation. *)
Definition News_save (id : nat) (data : News.data) : M unit :=
  now <- Date_now ;;
  db_call (DbWrite NewsItems)
    (λ d, (Val tt,
           set_news (news d ++ [News.mk id (News.d_title data) (News.d_description data)
                                   (News.d_imageUrl data) (News.d_videoUrl data) now]) d)).

(** The fields [newsData] sets overwrite those of the document. *)
Definition News_apply (data : News.data) (n : News.t) : News.t :=
  News.mk (News._id n) (News.d_title data) (News.d_description data)
    (match News.d_imageUrl data with Some u => Some u | None => News.imageUrl n end)
    (match News.d_videoUrl data with Some u => Some u | None => News.videoUrl n end)
    (News.createdAt n).

Fixpoint update_first {A} (p : A → bool) (f : A → A) (l : list A) : list A :=
  match l with
  | [] => []
  | x :: r => if p x then f x :: r else x :: update_first p f r
  end.

Fixpoint remove_first {A} (p : A → bool) (l : list A) : list A :=
  match l with
  | [] => []
  | x :: r => if p x then r else x :: remove_first p r
  end.

(** [News.findByIdAndUpdate(id, newsData, { new: true })] *)
Definition News_findByIdAndUpdate (id : nat) (data : News.data) : M (option News.t) :=
  db_call (DbWrite NewsItems)
    (λ d, (Val (News_apply data <$> find (by_news_id id) (news d)),
           set_news (update_first (by_news_id id) (News_apply data) (news d)) d)).

(** [News.findByIdAndDelete(id)] *)
Definition News_findByIdAndDelete (id : nat) : M unit :=
  db_call (DbWrite NewsItems)
    (λ d, (Val tt, set_news (remove_first (by_news_id id) (news d)) d)).

(** [contact.save()] of a new document. *)
Definition Contact_save (c : Contact.t) : M unit :=
  db_call (DbWrite Contacts) (λ d, (Val tt, set_contacts (contacts d ++ [c]) d)).

(** ** The upload directory *)

Definition fs_existsSync (path : string) : M bool :=
  gets (λ w, bool_decide (path ∈ disk w)).

Definition fs_unlinkSync (path : string) : M unit :=
  modify (λ w, log (FsUnlink path) (set_disk (disk w ∖ {[path]}) w)).

Definition fs_write (path : string) : M unit :=
  modify (λ w, log (FsWrite path) (set_disk ({[path]} ∪ disk w) w)).

(** ** The mail relay: [transporter.sendMail] *)
Definition sendMail : M unit :=
  λ w, let w := log MailSend w in
       if relay_up (env w) then (Val tt, w) else (Exn MailError, w).

(** ** Requests and responses *)

Inductive Route :=
  | PostRegister | PostLogin | GetUser
  | GetMembers | PostMembers | GetMemberById
  | GetNews | PostNews | PutNews | DeleteNews
  | PostContact.

#[global] Instance Route_eq_dec : EqDecision Route.
Proof. solve_decision. Defined.

(** A file part of a multipart request, with the number of bytes it
    carries. *)
Record FilePart := mkPart {
  fieldname : string;
  originalname : string;
  mimetype : string;
  bytes : Z
}.

(** An entry of [req.files]: the part and the name it was stored under. *)
Record File := mkFile { part : FilePart; filename : string }.

(** What the client sends. [body] holds the JSON members or the text
    fields of a multipart form; [parts] is [None] when the request is not
    multipart. *)
Record HttpRequest := mkHttp {
  route : Route;
  authorization : option string;
  body : gmap string string;
  query_search : option string;
  params_id : nat;
  parts : option (list FilePart)
}.

(** The request object as the middleware extends it. *)
Record Req := mkReq {
  http : HttpRequest;
  userId : option nat;
  userRole : option string;
  files : option (list File)
}.

Inductive Body :=
  | Message (message : string)
  | TokenBody (token : string)
  | UserBody (user : option (nat * string * string))
  | MembersBody (members : list Member.t)
  | MemberBody (member : Member.t)
  | NewsBody (news : list News.t).

Record Response := json { status : nat; payload : Body }.

(** ** Upload intake: the multer configuration of server.js *)

Definition destination : string := "public/uploads/".

(** [limits.fileSize] *)
Definition fileSize : Z := 10 * 1024 * 1024.

Definition allowed_photo_types : list string :=
  ["image/jpeg"; "image/jpg"; "image/png"].

(** [fileFilter]: the error message when the file is refused. *)
Definition fileFilter (file : FilePart) : option string :=
  if String.eqb (fieldname file) "passportPhotos"
     && negb (bool_decide (mimetype file ∈ allowed_photo_types))
  then Some "Passport photo must be JPG, JPEG, or PNG"
  else None.

(** [storage.filename] *)
Definition storage_filename (now : Z) (file : FilePart) : string :=
  JS.numberToString now ++ "-" ++ originalname file.

Definition path_of (f : File) : string := destination ++ filename f.

(** multer, on an error, removes what it has stored for the request so
    far. *)
Fixpoint removeUploadedFiles (stored : list File) : M unit :=
  match stored with
  | [] => ret tt
  | f :: r => fs_unlinkSync (path_of f) ;; removeUploadedFiles r
  end.

(** The parts that follow a failed one: a part the parser still delivers
    and the filter accepts is written, and nothing removes it any more. *)
Fixpoint late (todo : list FilePart) (delivered : list bool) : M unit :=
  match todo, delivered with
  | p :: r, true :: d =>
      match fileFilter p with
      | Some _ => late r d
      | None =>
          now <- Date_now ;;
          fs_write (path_of (mkFile p (storage_filename now p))) ;;
          late r d
      end
  | _ :: r, false :: d => late r d
  | _, _ => ret tt
  end.

(** What multer does once a part has failed: it removes the files stored
    so far, and hands the error over; the parts behind the failed one go
    the way of [late]. *)
Definition abort (stored : list File) (rest : list FilePart) (msg : string)
    : M (string + list File) :=
  removeUploadedFiles stored ;;
  delivered <- gets (λ w, late_parts (env w)) ;;
  late rest delivered ;;
  ret (inl msg).

(** multer's [.any()] over the file parts, in order: the filter, then the
    write under the generated name, cut off by the size limit. *)
Fixpoint intake (todo : list FilePart) (stored : list File) : M (string + list File) :=
  match todo with
  | [] => ret (inr stored)
  | p :: r =>
      match fileFilter p with
      | Some msg => abort stored r msg
      | None =>
          now <- Date_now ;;
          let f := mkFile p (storage_filename now p) in
          fs_write (path_of f) ;;
          if fileSize <? bytes p
          then abort (stored ++ [f]) r "File too large"
          else intake r (stored ++ [f])
      end
  end.

(** [upload(req, res, cb)]: [cb] gets the error message, if any. *)
Definition upload (req : Req) (cb : option string → Req → M Response) : M Response :=
  match parts (http req) with
  | None => cb None req
  | Some ps =>
      r <- intake ps [] ;;
      match r with
      | inl msg => cb (Some msg) req
      | inr fs => cb None (mkReq (http req) (userId req) (userRole req) (Some fs))
      end
  end.

(** ** Middleware and route handlers of server.js *)

Section Server.
Context {P : Platform} (cfg : Config).

(** [req.headers['authorization']?.split(' ')[1]] *)
Definition bearer (authorization : option string) : option string :=
  h ← authorization; JS.split " " h !! 1%nat.

Definition verifyToken (req : Req) (next : Req → M Response) : M Response :=
  let token := bearer (authorization (http req)) in
  if negb (JS.truthy token) then ret (json 401 (Message "Please login"))
  else
    now <- Date_now ;;
    match jwt_verify (JS.str token) (JWT_SECRET cfg) (now / 1000) with
    | None => ret (json 403 (Message "Invalid session"))
    | Some decoded =>
        next (mkReq (http req) (Some (jwt_id decoded)) (Some (jwt_role decoded))
                (files req))
    end.

Definition isAdmin (req : Req) (next : Req → M Response) : M Response :=
  if negb (bool_decide (userRole req = Some "admin"))
  then ret (json 403 (Message "Admin access required"))
  else next req.

(** [bcrypt.hash(password, 10)] *)
Definition hash_password (password : string) : M string :=
  gets (λ w, bcrypt_hash password 10 (entropy (env w))).

(** [bcrypt.compare(password, hash)]; it throws without a password. *)
Definition compare_password (password : option string) (hash : string) : M bool :=
  match password with
  | None => throw TypeError
  | Some p => ret (bcrypt_compare p hash)
  end.

(** [POST /api/register] *)
Definition register (req : Req) : M Response :=
  let email := body (http req) !! "email" in
  let password := body (http req) !! "password" in
  if negb (JS.truthy email) || negb (JS.truthy password)
  then ret (json 400 (Message "Email and password required"))
  else
    try_catch
      (existingUser <- User_findOne email ;;
       match existingUser with
       | Some _ => ret (json 400 (Message "Email already used"))
       | None =>
           hashedPassword <- hash_password (JS.str password) ;;
           id <- new_id ;;
           User_save (User.mk id (JS.str email) hashedPassword "user") ;;
           ret (json 201 (Message "Registered successfully"))
       end)
      (λ _, ret (json 500 (Message "Server error during registration"))).

(** [POST /api/login] *)
Definition login (req : Req) : M Response :=
  let email := body (http req) !! "email" in
  let password := body (http req) !! "password" in
  user <- User_findOne email ;;
  match user with
  | None => ret (json 401 (Message "Invalid email or password"))
  | Some user =>
      ok <- compare_password password (User.password user) ;;
      if negb ok then ret (json 401 (Message "Invalid email or password"))
      else
        now <- Date_now ;;
        let token := jwt_sign (User._id user) (User.role user) (JWT_SECRET cfg)
                       expiresIn (now / 1000) in
        ret (json 200 (TokenBody token))
  end.

(** [GET /api/user] *)
Definition get_user (req : Req) : M Response :=
  user <- User_findById (userId req) ;;
  ret (json 200 (UserBody ((λ u, (User._id u, User.email u, User.role u)) <$> user))).

(** The predicate of [members.filter] in [GET /api/members]. *)
Definition member_matches (searchQuery : string) (member : Member.t) : bool :=
  JS.includes (JS.toLowerCase (Member.surname member ++ " " ++ Member.otherNames member))
    searchQuery
  || JS.includes (JS.toLowerCase (Member.location member)) searchQuery
  || JS.includes (Member.phone member) searchQuery
  || JS.includes (JS.toLowerCase (Member.contact member)) searchQuery.

(** [GET /api/members] *)
Definition list_members (req : Req) : M Response :=
  let searchQuery :=
    if JS.truthy (query_search (http req))
    then JS.toLowerCase (JS.str (query_search (http req)))
    else "" in
  members <- Member_find ;;
  let members :=
    if JS.truthy (Some searchQuery)
    then List.filter (member_matches searchQuery) members
    else members in
  ret (json 200 (MembersBody members)).

(** The names the create handler tests with [!]. *)
Definition checked_fields : list string :=
  ["surname"; "otherNames"; "dateOfBirth"; "gender"; "occupation";
   "qualification"; "localGovernmentOfOrigin"; "residentialAddress"; "phone";
   "nextOfKin"; "enrollmentStatus"; "dateEnrollment"; "shortFarmHistory";
   "cropVariety"; "farmingExperience"; "irrigationMethod"; "location";
   "farmSize"; "contact"].

Definition uploads_url (file : File) : string := "/uploads/" ++ filename file.

(** The object literal [memberData], with [passportPhotos] when files
    came. *)
Definition memberData (b : gmap string string) (files : option (list File)) : Member.data :=
  Member.mkData
    (b !! "surname") (b !! "otherNames")
    (Date_parse (JS.str (b !! "dateOfBirth")))
    (b !! "gender") (b !! "occupation") (b !! "qualification")
    (b !! "localGovernmentOfOrigin") (b !! "residentialAddress")
    (b !! "phone") (b !! "nextOfKin") (b !! "enrollmentStatus")
    (Date_parse (JS.str (b !! "dateEnrollment")))
    (b !! "shortFarmHistory")
    (b !! "refereeLgaCoordinator") (b !! "refereeGroupCoordinator")
    (match files with
     | Some (f :: fs) => Some (uploads_url <$> (f :: fs))
     | _ => None
     end)
    (b !! "cropVariety")
    (JS.parseInt (JS.str (b !! "farmingExperience")))
    (b !! "irrigationMethod") (b !! "membershipStatus")
    (b !! "location") (b !! "farmSize") (b !! "contact").

(** [POST /api/members] *)
Definition create_member (req : Req) : M Response :=
  upload req (λ err req,
    match err with
    | Some msg => ret (json 400 (Message msg))
    | None =>
        let b := body (http req) in
        if existsb (λ k, negb (JS.truthy (b !! k))) checked_fields
        then ret (json 400 (Message "All required fields must be filled"))
        else
          id <- new_id ;;
          try_catch
            (member <- Member_save id (memberData b (files req)) ;;
             ret (json 201 (MemberBody member)))
            (λ _, ret (json 500 (Message "Error saving member")))
    end).

(** [GET /api/members/:id] *)
Definition get_member (req : Req) : M Response :=
  try_catch
    (member <- Member_findById (params_id (http req)) ;;
     match member with
     | None => ret (json 404 (Message "Member not found"))
     | Some member => ret (json 200 (MemberBody member))
     end)
    (λ _, ret (json 500 (Message "Server error"))).

(** [GET /api/news] *)
Definition list_news (req : Req) : M Response :=
  news <- News_find_sorted ;;
  ret (json 200 (NewsBody news)).

(** The [req.files.forEach] of the two news handlers. *)
Definition attach (newsData : News.data) (file : File) : News.data :=
  if String.eqb (fieldname (part file)) "image"
  then News.mkData (News.d_title newsData) (News.d_description newsData)
         (Some (uploads_url file)) (News.d_videoUrl newsData)
  else if String.eqb (fieldname (part file)) "video"
  then News.mkData (News.d_title newsData) (News.d_description newsData)
         (News.d_imageUrl newsData) (Some (uploads_url file))
  else newsData.

Definition newsData (title description : string) (files : option (list File)) : News.data :=
  match files with
  | Some fs => fold_left attach fs (News.mkData title description None None)
  | None => News.mkData title description None None
  end.

(** The first stage of [POST] and [PUT /api/news]. *)
Definition news_upload (req : Req) (next : Req → M Response) : M Response :=
  upload req (λ err req,
    match err with
    | Some msg => ret (json 400 (Message msg))
    | None => next req
    end).

(** [POST /api/news] *)
Definition create_news (req : Req) : M Response :=
  news_upload req (λ req,
    let title := body (http req) !! "title" in
    let description := body (http req) !! "description" in
    if negb (JS.truthy title) || negb (JS.truthy description)
    then ret (json 400 (Message "Title and description required"))
    else
      id <- new_id ;;
      News_save id (newsData (JS.str title) (JS.str description) (files req)) ;;
      ret (json 201 (Message "News added successfully"))).

(** [PUT /api/news/:id] *)
Definition update_news (req : Req) : M Response :=
  news_upload req (λ req,
    let id := params_id (http req) in
    let title := body (http req) !! "title" in
    let description := body (http req) !! "description" in
    if negb (JS.truthy title) || negb (JS.truthy description)
    then ret (json 400 (Message "Title and description required"))
    else
      news <- News_findByIdAndUpdate id
                (newsData (JS.str title) (JS.str description) (files req)) ;;
      match news with
      | None => ret (json 404 (Message "News not found"))
      | Some _ => ret (json 200 (Message "News updated successfully"))
      end).

(** [if (url) { if (fs.existsSync(path)) fs.unlinkSync(path) }] *)
Definition unlink_media (url : option string) : M unit :=
  if JS.truthy url
  then
    let path := "public" ++ JS.str url in
    there <- fs_existsSync path ;;
    if (there : bool) then fs_unlinkSync path else ret tt
  else ret tt.

(** [DELETE /api/news/:id] *)
Definition delete_news (req : Req) : M Response :=
  let id := params_id (http req) in
  try_catch
    (news <- News_findById id ;;
     match news with
     | None => ret (json 404 (Message "News not found"))
     | Some news =>
         unlink_media (News.imageUrl news) ;;
         unlink_media (News.videoUrl news) ;;
         News_findByIdAndDelete id ;;
         ret (json 200 (Message "News deleted successfully"))
     end)
    (λ _, ret (json 500 (Message "Error deleting news"))).

(** [POST /api/contact] *)
Definition submit_contact (req : Req) : M Response :=
  let name := body (http req) !! "name" in
  let email := body (http req) !! "email" in
  let message := body (http req) !! "message" in
  if negb (JS.truthy name) || negb (JS.truthy email) || negb (JS.truthy message)
  then ret (json 400 (Message "All fields required"))
  else
    id <- new_id ;;
    now <- Date_now ;;
    Contact_save (Contact.mk id (JS.str name) (JS.str email) (JS.str message) now) ;;
    try_catch
      (sendMail ;;
       ret (json 201 (Message "Message sent successfully")))
      (λ _, ret (json 201 (Message "Message saved, but email notification failed"))).

(** The routing table. The result is the response sent, or the
    exception that left the handler. *)
Definition app (h : HttpRequest) : M Response :=
  let req := mkReq h None None None in
  match route h with
  | PostRegister => register req
  | PostLogin => login req
  | GetUser => verifyToken req get_user
  | GetMembers => verifyToken req (λ req, isAdmin req list_members)
  | PostMembers => verifyToken req (λ req, isAdmin req create_member)
  | GetMemberById => verifyToken req (λ req, isAdmin req get_member)
  | GetNews => list_news req
  | PostNews => verifyToken req (λ req, isAdmin req create_news)
  | PutNews => verifyToken req (λ req, isAdmin req update_news)
  | DeleteNews => verifyToken req (λ req, isAdmin req delete_news)
  | PostContact => submit_contact req
  end.

(** A request served in the environment it arrives in. *)
Definition serve (e : Env) (h : HttpRequest) (w : World) : Result Response * World :=
  app h (set_env e w).

(** A history of requests, each with its environment. *)
Fixpoint run (history : list (Env * HttpRequest)) (w : World)
  : list (Result Response) * World :=
  match history with
  | [] => ([], w)
  | (e, h) :: rest =>
      let '(r, w') := serve e h w in
      let '(rs, w'') := run rest w' in
      (r :: rs, w'')
  end.

End Server.

Definition admin_routes : list Route :=
  [GetMembers; GetMemberById; PostMembers; PostNews; PutNews; DeleteNews].

Definition protected_routes : list Route := GetUser :: admin_routes.

(** ** A reference platform

    A small implementation of the [Platform] interface, used to run the
    server on concrete requests. A token spells out its claims and ends
    with the key that signed it; a hash is the password behind a marker;
    two calendar dates are understood. *)
Module Reference.

Fixpoint enc_pos (p : positive) : string :=
  match p with
  | xH => "."
  | xO q => String "0" (enc_pos q)
  | xI q => String "1" (enc_pos q)
  end.

Fixpoint dec_pos (s : string) : option (positive * string) :=
  match s with
  | String "."%char r => Some (xH, r)
  | String "0"%char r => '(q, r') ← dec_pos r; Some (xO q, r')
  | String "1"%char r => '(q, r') ← dec_pos r; Some (xI q, r')
  | _ => None
  end.

Definition enc_Z (z : Z) : string :=
  match z with
  | Z0 => "z"
  | Zpos p => String "p" (enc_pos p)
  | Zneg p => String "n" (enc_pos p)
  end.

Definition dec_Z (s : string) : option (Z * string) :=
  match s with
  | String "z"%char r => Some (Z0, r)
  | String "p"%char r => '(p, r') ← dec_pos r; Some (Zpos p, r')
  | String "n"%char r => '(p, r') ← dec_pos r; Some (Zneg p, r')
  | _ => None
  end.

Fixpoint enc_str (s : string) : string :=
  match s with
  | EmptyString => ";"
  | String c r => String "+" (String c (enc_str r))
  end.

Fixpoint dec_str (s : string) : option (string * string) :=
  match s with
  | String ";"%char r => Some (EmptyString, r)
  | String "+"%char (String c r) => '(t, r') ← dec_str r; Some (String c t, r')
  | _ => None
  end.

Definition sign (id : nat) (role key : string) (ttl t : Z) : string :=
  enc_Z (Z.of_nat id) ++ enc_str role ++ enc_Z t ++ enc_Z (t + ttl) ++ key.

Definition verify (token key : string) (now : Z) : option JwtPayload :=
  '(id, r1) ← dec_Z token;
  '(role, r2) ← dec_str r1;
  '(iat, r3) ← dec_Z r2;
  '(exp, signature) ← dec_Z r3;
  if String.eqb signature key && (now <? exp)
  then Some (mkJwt (Z.to_nat id) role iat exp)
  else None.

Definition hash (password : string) (rounds salt : nat) : string :=
  String "$" password.

Definition compare (password hash : string) : bool :=
  String.eqb hash (String "$" password).

Definition parse_date (s : string) : option Z :=
  if String.eqb s "2000-01-01" then Some 946684800000
  else if String.eqb s "2024-03-15" then Some 1710460800000
  else None.

Definition platform : Platform :=
  Build_Platform sign verify hash compare parse_date.

Definition cfg : Config := mkConfig None.

Definition empty_db : Db := mkDb [] [] [] [] 0.

(** A quiet environment at the given time: no store fault, relay up. *)
Definition calm (now : Z) : Env := mkEnv now [] true 7 [].

Definition world0 : World := mkWorld empty_db ∅ [] (calm 0).

Definition form (fields : list (string * string)) : gmap string string :=
  list_to_map fields.

Definition request (r : Route) (auth : option string)
    (fields : list (string * string)) : HttpRequest :=
  mkHttp r auth (form fields) None 0 None.

(** The header of a session signed at second 0 for the given role. *)
Definition session (role : string) : option string :=
  Some ("Bearer " ++ sign 1 role (JWT_SECRET cfg) expiresIn 0).

(** A complete membership form. *)
Definition member_form : list (string * string) :=
  [("surname", "Bello"); ("otherNames", "Amina"); ("dateOfBirth", "2000-01-01");
   ("gender", "Female"); ("occupation", "Farmer"); ("qualification", "BSc");
   ("localGovernmentOfOrigin", "Ikeja"); ("residentialAddress", "1 Farm Road");
   ("phone", "0803-EXT-12"); ("nextOfKin", "Musa Bello");
   ("enrollmentStatus", "Direct Farmer"); ("dateEnrollment", "2024-03-15");
   ("shortFarmHistory", "Two seasons of maize"); ("cropVariety", "Maize");
   ("farmingExperience", "12"); ("irrigationMethod", "Drip");
   ("location", "Lagos"); ("farmSize", "2ha"); ("contact", "amina@farm.ng")].

Definition png (field name : string) (n : Z) : FilePart :=
  mkPart field name "image/png" n.

Definition alice : list (string * string) :=
  [("email", "alice@farm.ng"); ("password", "s3cret")].

(** Alice registers at 5 s and logs in at 6 s. *)
Definition alice_history : list (Env * HttpRequest) :=
  [(calm 5000, request PostRegister None alice);
   (calm 6000, request PostLogin None alice)].

(** The world once Alice has registered. *)
Definition registered : World :=
  (run (P:=platform) cfg [(calm 5000, request PostRegister None alice)] world0).2.

(** The token of Alice's login at 6 s. *)
Definition alice_token : string := sign 0 "user" (JWT_SECRET cfg) expiresIn 6.

(** A stored member whose phone number holds upper-case letters. *)
Definition amina : Member.t :=
  Member.mk 0 "Bello" "Amina" 946684800000 "Female" "Farmer" "BSc" "Ikeja"
    "1 Farm Road" "0803-EXT-12" "Musa Bello" "Direct Farmer" 1710460800000
    "Two seasons of maize" None None [] "Maize" (JS.Num 12) "Drip" "Pending" "Lagos"
    "2ha" "amina@farm.ng".

(** A stored member whose phone number is digits only. *)
Definition bola : Member.t :=
  Member.mk 1 "Ade" "Bola" 946684800000 "Male" "Farmer" "HND" "Ibadan North"
    "4 Mill Lane" "08031234567" "Tayo Ade" "Group Farmer" 1710460800000
    "Cassava since 2015" None None [] "Cassava" (JS.Num 9) "Rainfed" "Active" "Ibadan"
    "5ha" "bola@farm.ng".

Definition with_members (l : list Member.t) : World :=
  mkWorld (mkDb [] l [] [] 1) ∅ [] (calm 0).

(** A news item with an image, and a world that stores both. *)
Definition harvest : News.t :=
  News.mk 0 "Harvest" "The maize is in" (Some "/uploads/5000-maize.png") None 5000.

Definition with_harvest : World :=
  mkWorld (mkDb [] [] [harvest] [] 1) {["public/uploads/5000-maize.png"]} []
    (calm 9000).

(** An environment in which the store fails as scheduled. *)
Definition troubled (now : Z) (faults : list bool) : Env :=
  mkEnv now faults true 7 [].

(** An environment in which the parser goes on delivering the parts
    behind a failed one. *)
Definition lingering (now : Z) : Env := mkEnv now [] true 7 [true; true; true].

Definition as_admin (r : Route) (fields : list (string * string))
    (files : option (list FilePart)) : HttpRequest :=
  mkHttp r (session "admin") (form fields) None 0 files.

Definition headline : list (string * string) :=
  [("title", "Rains"); ("description", "The rains have come")].

End Reference.

(** ** Vocabulary of the properties *)

(** The server reads [token] as the bearer token of the request. *)
Definition carries (h : HttpRequest) (token : string) : Prop :=
  bearer (authorization h) = Some token ∧ token ≠ "".

(** No store operation is scheduled to fail. *)
Definition healthy (e : Env) : Prop := db_faults e = [].

(** Whatever its outcome, a computation takes the store to one related
    to it by [R]. *)
Definition steps {A} (R : relation Db) (m : M A) : Prop :=
  ∀ w r w', m w = (r, w') → R (db w) (db w').

(** The part [g] of the store is left as it was. *)
Definition same {X} (g : Db → X) : relation Db := λ d d', g d' = g d.

(** The accounts are kept, in order, and those added have the role
    "user". *)
Definition grows : relation Db :=
  λ d d', ∃ l : list User.t,
    users d' = (users d ++ l)%list ∧ Forall (λ u, User.role u = "user") l.

(** The request carries a token that verifies, now, with the role
    "admin": it passes both gates. *)
Definition admin_request {P : Platform} (cfg : Config) (h : HttpRequest) (w : World) : Prop :=
  ∃ token decoded,
    carries h token
    ∧ jwt_verify token (JWT_SECRET cfg) (clock (env w) / 1000) = Some decoded
    ∧ jwt_role decoded = "admin".

(** The handler that server.js registers behind [verifyToken] and
    [isAdmin] on each admin route. *)
Definition admin_handler {P : Platform} (r : Route) : option (Req → M Response) :=
  match r with
  | GetMembers => Some list_members
  | PostMembers => Some create_member
  | GetMemberById => Some get_member
  | PostNews => Some create_news
  | PutNews => Some update_news
  | DeleteNews => Some delete_news
  | _ => None
  end.

(** The paths of the files of a request. *)
Definition paths (fs : list File) : gset string := list_to_set (path_of <$> fs).

(** The file a part becomes when it is stored at time [now]. *)
Definition stored_as (now : Z) (p : FilePart) : File :=
  mkFile p (storage_filename now p).

(** [req.files] after an upload step that succeeded at time [now]. *)
Definition intaken (now : Z) (h : HttpRequest) : option (list File) :=
  fmap (M:=option) (fmap (M:=list) (stored_as now)) (parts h).

(** Every file part of the request passes the filter and the size limit. *)
Definition acceptable (h : HttpRequest) : Prop :=
  match parts h with
  | Some ps => Forall (λ p, fileFilter p = None ∧ bytes p ≤ fileSize) ps
  | None => True
  end.

(** The upload of the parts [ps] fails at [culprit]: the parts [before]
    it pass the filter and the size limit, [culprit] does not, and
    [after] are the parts behind it. *)
Definition fails_at (ps before : list FilePart) (culprit : FilePart)
    (after : list FilePart) : Prop :=
  ps = (before ++ culprit :: after)%list
  ∧ Forall (λ p, fileFilter p = None ∧ bytes p ≤ fileSize) before
  ∧ (is_Some (fileFilter culprit) ∨ fileSize < bytes culprit).

(** Every field the create-member handler tests is present and not
    empty. *)
Definition filled (b : gmap string string) : Prop :=
  Forall (λ k, JS.truthy (b !! k) = true) checked_fields.

Definition is_digit (c : ascii) : bool :=
  let n := nat_of_ascii c in ((48 <=? n) && (n <=? 57))%nat.

Fixpoint all_digits (s : string) : bool :=
  match s with
  | EmptyString => true
  | String c r => is_digit c && all_digits r
  end.

(** A numeric string: decimal digits, at least one. *)
Definition numeral (s : string) : Prop := s ≠ "" ∧ all_digits s = true.

Fixpoint decimal_from (acc : Z) (s : string) : Z :=
  match s with
  | EmptyString => acc
  | String c r => decimal_from (acc * 10 + (Z.of_nat (nat_of_ascii c) - 48)) r
  end.

(** The integer a numeric string denotes. *)
Definition decimal (s : string) : Z := decimal_from 0 s.

(** Spec: [field] contains [query] as a case-insensitive substring. *)
Definition contains_ci (field query : string) : bool :=
  JS.includes (JS.toLowerCase field) (JS.toLowerCase query).

(** Spec: the members a search for [query] is to return, those whose
    name, location, phone or contact contains it case-insensitively. *)
Definition matches_spec (query : string) (m : Member.t) : bool :=
  contains_ci (Member.surname m ++ " " ++ Member.otherNames m) query
  || contains_ci (Member.location m) query
  || contains_ci (Member.phone m) query
  || contains_ci (Member.contact m) query.

Fixpoint no_space (s : string) : bool :=
  match s with
  | EmptyString => true
  | String c r => negb (Ascii.eqb c " ") && no_space r
  end.

(** The routes whose handler runs the upload step. *)
Definition upload_routes : list Route := [PostMembers; PostNews; PutNews].

(** Accounts, members and contacts are kept, in order; documents may
    only have been added behind them. *)
Definition kept : relation Db :=
  λ d d', users d `prefix_of` users d'
          ∧ members d `prefix_of` members d'
          ∧ contacts d `prefix_of` contacts d'.

(** What the Member schema demands of a stored document: the required
    strings are not empty and the enumerated ones hold a listed value. *)
Definition schema_valid (m : Member.t) : Prop :=
  Forall (λ s, s ≠ "")
    [Member.surname m; Member.otherNames m; Member.occupation m;
     Member.qualification m; Member.localGovernmentOfOrigin m;
     Member.residentialAddress m; Member.phone m; Member.nextOfKin m;
     Member.shortFarmHistory m; Member.cropVariety m; Member.location m;
     Member.farmSize m; Member.contact m]
  ∧ Member.gender m ∈ Member.gender_enum
  ∧ Member.enrollmentStatus m ∈ Member.enrollmentStatus_enum
  ∧ Member.irrigationMethod m ∈ Member.irrigationMethod_enum
  ∧ Member.membershipStatus m ∈ Member.membershipStatus_enum.

(** Schema-valid members stay so, and so are those added. *)
Definition schema_kept : relation Db :=
  λ d d', Forall schema_valid (members d) → Forall schema_valid (members d').

(** The failures of the authorization pipeline and the answers server.js
    gives them. *)
Inductive AuthError := MissingToken | InvalidToken | Forbidden.

Definition auth_response (e : AuthError) : Response :=
  match e with
  | MissingToken => json 401 (Message "Please login")
  | InvalidToken => json 403 (Message "Invalid session")
  | Forbidden => json 403 (Message "Admin access required")
  end.

(** ** The authorization pipeline *)

Section Gates.
Context {P : Platform} (cfg : Config).

Lemma carries_truthy h token :
  carries h token →
  JS.truthy (bearer (authorization h)) = true
  ∧ JS.str (bearer (authorization h)) = token.
Proof.
  intros [-> Hne]. split; [|done].
  destruct token; [done|reflexivity].
Qed.

Lemma verifyToken_missing req next w :
  JS.truthy (bearer (authorization (http req))) = false →
  verifyToken cfg req next w = (Val (json 401 (Message "Please login")), w).
Proof. intros H. unfold verifyToken. by rewrite H. Qed.

Lemma verifyToken_invalid req next w token :
  carries (http req) token →
  jwt_verify token (JWT_SECRET cfg) (clock (env w) / 1000) = None →
  verifyToken cfg req next w = (Val (json 403 (Message "Invalid session")), w).
Proof.
  intros [Ht Hs]%carries_truthy Hv. unfold verifyToken.
  rewrite Ht, Hs. unfold bind, Date_now, gets. simpl. by rewrite Hv.
Qed.

Lemma verifyToken_pass req next w token decoded :
  carries (http req) token →
  jwt_verify token (JWT_SECRET cfg) (clock (env w) / 1000) = Some decoded →
  verifyToken cfg req next w
  = next (mkReq (http req) (Some (jwt_id decoded)) (Some (jwt_role decoded))
            (files req)) w.
Proof.
  intros [Ht Hs]%carries_truthy Hv. unfold verifyToken.
  rewrite Ht, Hs. unfold bind, Date_now, gets. simpl. by rewrite Hv.
Qed.

Lemma isAdmin_forbidden req next w :
  userRole req ≠ Some "admin" →
  isAdmin req next w = (Val (json 403 (Message "Admin access required")), w).
Proof. intros H. unfold isAdmin. by rewrite bool_decide_eq_false_2. Qed.

Lemma isAdmin_pass req next w :
  userRole req = Some "admin" → isAdmin req next w = next req w.
Proof. intros H. unfold isAdmin. by rewrite bool_decide_eq_true_2. Qed.

(** Every protected route starts with [verifyToken]; every admin route
    continues with [isAdmin]. *)
Lemma protected_route_gate h :
  route h ∈ protected_routes →
  ∃ next, app cfg h = verifyToken cfg (mkReq h None None None) next.
Proof.
  intros Hr. unfold app.
  destruct (route h); eauto;
    apply list_elem_of_In in Hr; simpl in Hr; exfalso; intuition discriminate.
Qed.

Lemma admin_route_gate h :
  route h ∈ admin_routes →
  ∃ handler,
    app cfg h
    = verifyToken cfg (mkReq h None None None) (λ req, isAdmin req handler).
Proof.
  intros Hr. unfold app.
  destruct (route h); eauto;
    apply list_elem_of_In in Hr; simpl in Hr; exfalso; intuition discriminate.
Qed.

(** C1. On each of the six admin-only routes (list members, get member,
    create member, create, update and delete news), a request whose
    token verifies with a role other than "admin" is answered 403
    "Admin access required", and the world is left exactly as it was:
    no store operation, no file operation, not even an event in the
    trace, so the handler body did not run. *)
Theorem non_admin_token_forbidden h w token decoded :
  route h ∈ admin_routes →
  carries h token →
  jwt_verify token (JWT_SECRET cfg) (clock (env w) / 1000) = Some decoded →
  jwt_role decoded ≠ "admin" →
  app cfg h w = (Val (json 403 (Message "Admin access required")), w).
Proof.
  intros [handler ->]%admin_route_gate Hc Hv Hrole.
  rewrite (verifyToken_pass _ _ _ token decoded) by done.
  apply isAdmin_forbidden. simpl. congruence.
Qed.

End Gates.

(** ** The reference platform obeys the laws *)

Lemma dec_pos_enc p r : Reference.dec_pos (Reference.enc_pos p ++ r) = Some (p, r).
Proof. induction p as [p IH|p IH|]; simpl; [rewrite IH..|]; done. Qed.

Lemma dec_Z_enc z r : Reference.dec_Z (Reference.enc_Z z ++ r) = Some (z, r).
Proof. destruct z; simpl; [|rewrite dec_pos_enc..]; done. Qed.

Lemma dec_str_enc s r : Reference.dec_str (Reference.enc_str s ++ r) = Some (s, r).
Proof. induction s as [|c s IH]; simpl; [|rewrite IH]; done. Qed.

Lemma reference_verify_sign id role key ttl t now :
  Reference.verify (Reference.sign id role key ttl t) key now
  = if now <? t + ttl then Some (mkJwt id role t (t + ttl)) else None.
Proof.
  unfold Reference.verify, Reference.sign.
  rewrite dec_Z_enc. simpl. rewrite dec_str_enc. simpl.
  rewrite dec_Z_enc. simpl. rewrite dec_Z_enc. simpl.
  rewrite String.eqb_refl, Nat2Z.id. simpl. done.
Qed.

Lemma reference_laws : PlatformLaws Reference.platform.
Proof.
  split; simpl.
  - intros id role key ttl t now H. rewrite reference_verify_sign.
    by rewrite (proj2 (Z.ltb_lt _ _) H).
  - intros id role key ttl t now H. rewrite reference_verify_sign.
    by rewrite (proj2 (Z.ltb_ge _ _) H).
  - intros password rounds salt. apply String.eqb_refl.
Qed.

(** ** Tokens issued at login *)

Section Tokens.
Context {P : Platform} (cfg : Config).

(** A successful login signs the id and role of the first account with
    the given email, at the time of the request, for one hour. *)
Lemma login_issues req w0 w1 token :
  login cfg req w0 = (Val (json 200 (TokenBody token)), w1) →
  ∃ u, find (by_email (body (http req) !! "email")) (users (db w0)) = Some u
       ∧ token = jwt_sign (User._id u) (User.role u) (JWT_SECRET cfg) expiresIn
                   (clock (env w0) / 1000)
       ∧ db w1 = db w0.
Proof.
  unfold login, bind, User_findOne, db_call, compare_password, Date_now, gets,
    ret, throw.
  destruct (db_faults (env (log (DbRead Users) w0))) as [|[] fs]; simpl;
    try discriminate;
    (destruct (find _ _) as [u|]; simpl; [|discriminate];
     destruct (body (http req) !! "password"); simpl; [|discriminate];
     destruct (bcrypt_compare _ _); simpl; [|discriminate];
     intros [= <- <-]; exists u; simpl; done).
Qed.

Context {L : PlatformLaws P}.

(** C2. On every protected route (the current-user route and the six
    admin routes): without a bearer token the request fails with
    MissingToken (401 "Please login"); with a token that jwt.verify
    refuses (signature or expiry) it fails with InvalidToken (403
    "Invalid session"); in both cases nothing else happens. A token
    issued by a login at second [t] verifies with expiry time
    [t + 3600] at any time before [t + 3600] and not at all from then
    on, so a request carrying it one hour or more after the login is
    rejected with InvalidToken on every protected route. *)
Theorem token_verification h w :
  route h ∈ protected_routes →
  (JS.truthy (bearer (authorization h)) = false →
   app cfg h w = (Val (auth_response MissingToken), w))
  ∧ (∀ token,
       carries h token →
       jwt_verify token (JWT_SECRET cfg) (clock (env w) / 1000) = None →
       app cfg h w = (Val (auth_response InvalidToken), w))
  ∧ (∀ l w0 w1 token,
       route l = PostLogin →
       app cfg l w0 = (Val (json 200 (TokenBody token)), w1) →
       let t := clock (env w0) / 1000 in
       (∀ now, jwt_exp <$> jwt_verify token (JWT_SECRET cfg) now
               = if now <? t + 3600 then Some (t + 3600) else None)
       ∧ (carries h token →
          t + 3600 ≤ clock (env w) / 1000 →
          app cfg h w = (Val (auth_response InvalidToken), w))).
Proof.
  intros [next Happ]%(protected_route_gate cfg). rewrite Happ.
  split; [|split].
  - intros Hm. by apply verifyToken_missing.
  - intros token Hc Hv. by apply (verifyToken_invalid cfg (mkReq h None None None) _ _ token).
  - intros l w0 w1 token Hl Hlogin t.
    unfold app in Hlogin. rewrite Hl in Hlogin.
    apply login_issues in Hlogin as (u & _ & -> & _).
    fold t. split.
    + intros now. destruct (Z.ltb_spec now (t + 3600)) as [Hlt|Hge].
      * by rewrite jwt_verify_live.
      * by rewrite jwt_verify_expired.
    + intros Hc Hlate. apply (verifyToken_invalid cfg (mkReq h None None None) _ _ _ Hc).
      by apply jwt_verify_expired.
Qed.

End Tokens.

(** ** Frame lemmas: how far a computation can take the store *)

#[global] Instance same_preorder {X} (g : Db → X) : PreOrder (same g).
Proof. split; [by intros d|intros d1 d2 d3; unfold same; congruence]. Qed.

#[global] Instance grows_preorder : PreOrder grows.
Proof.
split.
- intros d. exists []. by rewrite app_nil_r.
- intros d1 d2 d3 (l1 & H1 & F1) (l2 & H2 & F2). exists (l1 ++ l2)%list.
  rewrite H2, H1, app_assoc. split; [done|by apply Forall_app].
Qed.

Section Frame.
Context (R : relation Db) {HR : PreOrder R}.

Lemma steps_ret {A} (a : A) : steps R (ret a).
Proof. by intros w r w' [= <- <-]. Qed.

Lemma steps_throw {A} e : steps R (throw (A:=A) e).
Proof. by intros w r w' [= <- <-]. Qed.

Lemma steps_gets {A} (f : World → A) : steps R (gets f).
Proof. by intros w r w' [= <- <-]. Qed.

Lemma steps_modify f : (∀ w, db (f w) = db w) → steps R (modify f).
Proof. intros Hf w r w' [= <- <-]. by rewrite Hf. Qed.

Lemma steps_bind {A B} (m : M A) (k : A → M B) :
steps R m → (∀ a, steps R (k a)) → steps R (bind m k).
Proof.
intros Hm Hk w r w'. unfold bind.
destruct (m w) as [[a|e] w1] eqn:E; intros H.
- etrans; [eapply Hm, E|eapply Hk, H].
- injection H as <- <-. eapply Hm, E.
Qed.

Lemma steps_try_catch {A} (m : M A) (h : Error → M A) :
steps R m → (∀ e, steps R (h e)) → steps R (try_catch m h).
Proof.
intros Hm Hh w r w'. unfold try_catch.
destruct (m w) as [[a|e] w1] eqn:E; intros H.
- injection H as <- <-. eapply Hm, E.
- etrans; [eapply Hm, E|eapply Hh, H].
Qed.

Lemma steps_db_call {A} ev (op : Db → Result A * Db) :
(∀ d, R d (op d).2) → steps R (db_call ev op).
Proof.
intros Hop w r w'. unfold db_call. simpl.
destruct (db_faults (env w)) as [|[] fs]; simpl.
- specialize (Hop (db w)). destruct (op (db w)) as [r1 d1].
  by intros [= <- <-].
- by intros [= <- <-].
- specialize (Hop (db w)). destruct (op (db w)) as [r1 d1].
  by intros [= <- <-].
Qed.

Lemma steps_new_id : (∀ n d, R d (set_next_id n d)) → steps R new_id.
Proof. intros Hg w r w' [= <- <-]. simpl. apply Hg. Qed.

Lemma steps_sendMail : steps R sendMail.
Proof.
intros w r w'. unfold sendMail. simpl.
by destruct (relay_up (env w)); intros [= <- <-].
Qed.

Lemma steps_fs_existsSync path : steps R (fs_existsSync path).
Proof. apply steps_gets. Qed.

Lemma steps_fs_unlinkSync path : steps R (fs_unlinkSync path).
Proof. by apply steps_modify. Qed.

Lemma steps_fs_write path : steps R (fs_write path).
Proof. by apply steps_modify. Qed.

Lemma steps_removeUploadedFiles stored : steps R (removeUploadedFiles stored).
Proof.
induction stored as [|f r IH]; simpl.
- apply steps_ret.
- apply steps_bind; [apply steps_fs_unlinkSync|done].
Qed.

Lemma steps_late todo : ∀ delivered, steps R (late todo delivered).
Proof.
induction todo as [|p r IH]; intros [|[] d]; simpl; try apply steps_ret; [|apply IH].
destruct (fileFilter p); [apply IH|].
apply steps_bind; [apply steps_gets|intros now].
apply steps_bind; [apply steps_fs_write|intros _]. apply IH.
Qed.

Lemma steps_abort stored rest msg : steps R (abort stored rest msg).
Proof.
unfold abort.
apply steps_bind; [apply steps_removeUploadedFiles|intros _].
apply steps_bind; [apply steps_gets|intros d].
apply steps_bind; [apply steps_late|intros _]. apply steps_ret.
Qed.

Lemma steps_intake todo : ∀ stored, steps R (intake todo stored).
Proof.
induction todo as [|p r IH]; intros stored; simpl.
- apply steps_ret.
- destruct (fileFilter p).
  + apply steps_abort.
  + apply steps_bind; [apply steps_gets|intros now].
    apply steps_bind; [apply steps_fs_write|intros _].
    destruct (fileSize <? bytes p); [apply steps_abort|apply IH].
Qed.

Lemma steps_upload req cb :
(∀ err req', steps R (cb err req')) → steps R (upload req cb).
Proof.
intros Hcb. unfold upload. destruct (parts (http req)); [|done].
apply steps_bind; [apply steps_intake|]. by intros [msg|fs].
Qed.

Context {P : Platform} (cfg : Config).

Lemma steps_verifyToken req next :
(∀ req', steps R (next req')) → steps R (verifyToken cfg req next).
Proof.
intros Hn. unfold verifyToken.
destruct (negb _); [apply steps_ret|].
apply steps_bind; [apply steps_gets|intros now].
destruct (jwt_verify _ _ _); [done|apply steps_ret].
Qed.

Lemma steps_isAdmin req next : steps R (next req) → steps R (isAdmin req next).
Proof. intros Hn. unfold isAdmin. destruct (negb _); [apply steps_ret|done]. Qed.

End Frame.

(** One step of a frame proof, following the shape of the computation;
    [tac] settles what a store operation does to the store. *)
Ltac steps_step tac :=
  lazymatch goal with
  | |- steps _ (bind _ _) => apply steps_bind; [apply _| |intros ?]
  | |- steps _ (try_catch _ _) => apply steps_try_catch; [apply _| |intros ?]
  | |- steps _ (ret _) => apply steps_ret; apply _
  | |- steps _ (throw _) => apply steps_throw; apply _
  | |- steps _ (gets _) => apply steps_gets; apply _
  | |- steps _ Date_now => apply steps_gets; apply _
  | |- steps _ (hash_password _) => apply steps_gets; apply _
  | |- steps _ new_id => apply steps_new_id; intros ? ?; tac
  | |- steps _ sendMail => apply steps_sendMail; apply _
  | |- steps _ (fs_existsSync _) => apply steps_fs_existsSync; apply _
  | |- steps _ (fs_unlinkSync _) => apply steps_fs_unlinkSync; apply _
  | |- steps _ (db_call _ _) =>
      apply steps_db_call; [apply _|]; intros ?; simpl; repeat case_match; simpl; tac
  | |- steps _ (upload _ _) => apply steps_upload; [apply _|]; intros ? ?
  | |- steps _ (verifyToken _ _ _) => apply steps_verifyToken; [apply _|]; intros ?
  | |- steps _ (isAdmin _ _) => apply steps_isAdmin; [apply _|]
  | |- steps _ (if ?b then _ else _) => destruct b
  | |- steps _ (match ?x with _ => _ end) => destruct x
  end.

Ltac unfold_handlers :=
  unfold app, register, login, get_user, list_members, create_member, get_member,
    list_news, create_news, update_news, delete_news, submit_contact, news_upload,
    unlink_media, compare_password,
    User_findOne, User_findById, User_save, Member_find, Member_findById,
    Member_save, News_find_sorted, News_findById, News_save,
    News_findByIdAndUpdate, News_findByIdAndDelete, Contact_save;
  cbv zeta.

(** ** Accounts only ever enter the store through registration *)


Lemma find_app_Some {A} (p : A → bool) l l' x :
find p l = Some x → find p (l ++ l')%list = Some x.
Proof.
induction l as [|y l IH]; simpl; [done|].
destruct (p y); [done|apply IH].
Qed.

Lemma find_app_None {A} (p : A → bool) l l' :
find p l = None → find p (l ++ l')%list = find p l'.
Proof.
induction l as [|y l IH]; simpl; [done|].
destruct (p y); [done|apply IH].
Qed.

Lemma find_by_email_None email l :
email ∉ User.email <$> l → find (by_email (Some email)) l = None.
Proof.
induction l as [|u l IH]; simpl; [done|].
intros Hn. apply not_elem_of_cons in Hn as [Hne Hn].
destruct (String.eqb_spec (User.email u) email); [congruence|by apply IH].
Qed.

Lemma grows_find p d d' u :
grows d d' → find p (users d) = Some u → find p (users d') = Some u.
Proof. intros (l & -> & _). apply find_app_Some. Qed.

Lemma grows_no_admin d d' :
grows d d' →
Forall (λ u, User.role u ≠ "admin") (users d) →
Forall (λ u, User.role u ≠ "admin") (users d').
Proof.
intros (l & -> & Hl) Hw. apply Forall_app. split; [done|].
eapply Forall_impl; [exact Hl|]. by intros u ->.
Qed.

Section Accounts.
Context {P : Platform} (cfg : Config).

(** Whatever the request and its outcome, the accounts are kept and the
    only ones added have the role "user". *)
Lemma app_grows h : steps grows (app cfg h).
Proof.
unfold_handlers.
destruct (route h);
  repeat steps_step
    ltac:(first [ by (exists []; simpl; rewrite app_nil_r)
                | eexists [_]; simpl; split; [reflexivity|by repeat constructor] ]).
Qed.

(** Every route but the registration leaves the accounts as they are. *)
Lemma other_routes_keep_users h :
route h ≠ PostRegister → steps (same users) (app cfg h).
Proof.
intros Hr. unfold_handlers.
destruct (route h); [done|..]; repeat steps_step ltac:(by unfold same).
Qed.

Lemma run_grows history : ∀ w, grows (db w) (db (run cfg history w).2).
Proof.
induction history as [|[e h] rest IH]; intros w; simpl.
- reflexivity.
- unfold serve. destruct (app cfg h (set_env e w)) as [r w1] eqn:E.
  specialize (IH w1). destruct (run cfg rest w1) as [rs w2]. simpl in *.
  etrans; [|exact IH]. apply (app_grows h _ _ _ E).
Qed.

End Accounts.

(** ** Registration and login *)

Lemma db_call_healthy {A} ev (op : Db → Result A * Db) w :
healthy (env w) →
db_call ev op w = ((op (db w)).1, set_db (op (db w)).2 (log ev w)).
Proof.
unfold healthy, db_call. simpl. intros ->. by destruct (op (db w)).
Qed.

Lemma truthy_Some s : s ≠ "" → JS.truthy (Some s) = true.
Proof. by destruct s. Qed.

Section Sessions.
Context {P : Platform} (cfg : Config).

Lemma register_fresh req w email password :
body (http req) !! "email" = Some email → email ≠ "" →
body (http req) !! "password" = Some password → password ≠ "" →
email ∉ User.email <$> users (db w) →
healthy (env w) →
let u := User.mk (next_id (db w)) email
           (bcrypt_hash password 10 (entropy (env w))) "user" in
register req w
= (Val (json 201 (Message "Registered successfully")),
   mkWorld (set_users (users (db w) ++ [u]) (set_next_id (S (next_id (db w))) (db w)))
     (disk w) (trace w ++ [DbRead Users; DbWrite Users]) (env w)).
Proof.
intros He Hne Hp Hnp Hfresh Hh u. unfold register.
rewrite He, Hp, !truthy_Some by done. simpl.
unfold try_catch, bind, User_findOne, User_save, hash_password, new_id, gets, ret.
rewrite db_call_healthy by done. simpl.
rewrite find_by_email_None by done.
rewrite db_call_healthy by done. simpl.
rewrite find_by_email_None by done. simpl.
unfold set_db, log. simpl. by rewrite <- app_assoc.
Qed.

Lemma register_taken req w email u :
body (http req) !! "email" = Some email →
find (by_email (Some email)) (users (db w)) = Some u →
healthy (env w) →
∃ message w',
  register req w = (Val (json 400 (Message message)), w')
  ∧ users (db w') = users (db w).
Proof.
intros He Hu Hh. unfold register. rewrite He.
destruct (negb _ || negb _); [by eexists _, _|].
unfold try_catch, bind, User_findOne, ret.
rewrite db_call_healthy by done. simpl. rewrite Hu.
by eexists _, _.
Qed.

Lemma login_ok req w email password u :
body (http req) !! "email" = Some email →
body (http req) !! "password" = Some password →
find (by_email (Some email)) (users (db w)) = Some u →
bcrypt_compare password (User.password u) = true →
healthy (env w) →
login cfg req w
= (Val (json 200 (TokenBody (jwt_sign (User._id u) (User.role u) (JWT_SECRET cfg)
                                expiresIn (clock (env w) / 1000)))),
   log (DbRead Users) w).
Proof.
intros He Hp Hu Hc Hh. unfold login. rewrite He, Hp.
unfold bind, User_findOne, compare_password, Date_now, gets, ret.
rewrite db_call_healthy by done. simpl. rewrite Hu, Hc. simpl.
by destruct w as [[] ? ? []].
Qed.

(** The request at position [i] of a history is served in a world whose
    accounts extend the initial ones. *)
Lemma run_lookup history : ∀ w0 i e h r,
history !! i = Some (e, h) →
(run cfg history w0).1 !! i = Some r →
∃ wi w', grows (db w0) (db wi) ∧ serve cfg e h wi = (r, w').
Proof.
induction history as [|[e1 h1] rest IH]; intros w0 i e h r Hi Hr; [done|].
simpl in Hr. destruct (serve cfg e1 h1 w0) as [r1 w1] eqn:E.
destruct (run cfg rest w1) as [rs w2] eqn:Erun.
destruct i as [|i]; simpl in *.
- injection Hi as -> ->. injection Hr as ->.
  exists w0, w1. split; [reflexivity|done].
- destruct (IH w1 i e h r Hi) as (wi & w' & Hg & Hs).
  { by rewrite Erun. }
  exists wi, w'. split; [|done].
  etrans; [|exact Hg]. apply (app_grows cfg h1 _ _ _ E).
Qed.

Context {L : PlatformLaws P}.

(** C3. A registration whose email is present and not yet in the store
    and whose password is not empty, served while the store works, is
    answered 201 and appends one account holding that email, the bcrypt
    hash of the password and the role "user". After any further requests,
    a login with the same email and password (store working) is answered
    200 with a token signed at that moment for this account, which
    verifies then; and a registration with the same email is answered 400
    and adds no account. *)
Theorem register_then_login reg w email password :
route reg = PostRegister →
body reg !! "email" = Some email → email ≠ "" →
body reg !! "password" = Some password → password ≠ "" →
email ∉ User.email <$> users (db w) →
healthy (env w) →
∃ u w1,
  app cfg reg w = (Val (json 201 (Message "Registered successfully")), w1)
  ∧ users (db w1) = (users (db w) ++ [u])%list
  ∧ User.email u = email
  ∧ User.password u = bcrypt_hash password 10 (entropy (env w))
  ∧ User.role u = "user"
  ∧ ∀ history e,
      healthy e →
      let w2 := (run cfg history w1).2 in
      let now := clock e / 1000 in
      let token := jwt_sign (User._id u) "user" (JWT_SECRET cfg) expiresIn now in
      (∀ l,
         route l = PostLogin →
         body l !! "email" = Some email →
         body l !! "password" = Some password →
         ∃ w3, serve cfg e l w2 = (Val (json 200 (TokenBody token)), w3)
               ∧ jwt_verify token (JWT_SECRET cfg) now
                 = Some (mkJwt (User._id u) "user" now (now + 3600)))
      ∧ (∀ r,
           route r = PostRegister →
           body r !! "email" = Some email →
           ∃ message w3,
             serve cfg e r w2 = (Val (json 400 (Message message)), w3)
             ∧ users (db w3) = users (db w2)).
Proof.
intros Hroute He Hne Hp Hnp Hfresh Hh.
set (u := User.mk (next_id (db w)) email
            (bcrypt_hash password 10 (entropy (env w))) "user").
set (w1 := mkWorld
             (set_users (users (db w) ++ [u]) (set_next_id (S (next_id (db w))) (db w)))
             (disk w) (trace w ++ [DbRead Users; DbWrite Users]) (env w)).
exists u, w1. unfold app at 1. rewrite Hroute.
split; [by apply (register_fresh _ w email password)|].
do 4 (split; [done|]).
intros history e Hhe. set (w2 := (run cfg history w1).2).
assert (find (by_email (Some email)) (users (db w2)) = Some u) as Hfind.
{ apply (grows_find _ (db w1)); [apply run_grows|].
  simpl. rewrite find_app_None by by apply find_by_email_None.
  simpl. by rewrite String.eqb_refl. }
split.
- intros l Hl Hle Hlp. eexists. split.
  + unfold serve, app. rewrite Hl.
    by rewrite (login_ok _ (set_env e w2) email password u);
      [..|apply bcrypt_compare_hash|].
  + apply jwt_verify_live. unfold expiresIn. lia.
- intros r Hr Hre. unfold serve, app. rewrite Hr.
  destruct (register_taken (mkReq r None None None) (set_env e w2) email u)
    as (m & w3 & H1 & H2); [done..|].
  by exists m, w3.
Qed.

(** C9. Whatever a registration request holds and however it ends, the
    accounts already stored are kept and an account it adds has the role
    "user". Consequently, in any history of requests, a login to an
    account that is not an admin account of the initial store (so one
    that was registered) yields a token that no admin-only route accepts:
    a request carrying it is answered 403, as an invalid session once the
    token has expired and as lacking admin access before, and changes
    nothing. *)
Theorem registered_accounts_never_admin :
(∀ reg w r w',
   route reg = PostRegister →
   app cfg reg w = (r, w') →
   ∃ l : list User.t,
     users (db w') = (users (db w) ++ l)%list
     ∧ Forall (λ u, User.role u = "user") l)
∧ (∀ w0 history i e l token,
     (∀ u, u ∈ users (db w0) →
           body l !! "email" = Some (User.email u) → User.role u ≠ "admin") →
     history !! i = Some (e, l) →
     route l = PostLogin →
     (run cfg history w0).1 !! i = Some (Val (json 200 (TokenBody token))) →
     ∀ h w,
       route h ∈ admin_routes →
       carries h token →
       ∃ err, err ∈ [InvalidToken; Forbidden]
              ∧ app cfg h w = (Val (auth_response err), w)).
Proof.
split.
- intros reg w r w' _ H. apply (app_grows cfg reg _ _ _ H).
- intros w0 history i e l token Hinit Hi Hl Hr h w Hh Hc.
  destruct (run_lookup _ _ _ _ _ _ Hi Hr) as (wi & w' & (ext & Hext & Fext) & Hs).
  unfold serve, app in Hs. rewrite Hl in Hs.
  apply login_issues in Hs as (u & Hu & -> & _).
  simpl in Hu. apply find_some in Hu as [Hin Hmail].
  assert (User.role u ≠ "admin") as Hrole.
  { rewrite Hext in Hin. apply in_app_or in Hin as [Hin|Hin].
    - apply Hinit; [by apply list_elem_of_In|].
      unfold by_email in Hmail. destruct (body l !! "email") as [m|]; [|done].
      by apply String.eqb_eq in Hmail as ->.
    - rewrite Forall_forall in Fext.
      rewrite (Fext u) by by apply list_elem_of_In. done. }
  destruct (admin_route_gate cfg h Hh) as [handler ->].
  set (t := clock (env (set_env e wi)) / 1000).
  destruct (Z.lt_ge_cases (clock (env w) / 1000) (t + expiresIn)) as [Hlive|Hdead].
  + exists Forbidden. split; [repeat constructor|].
    rewrite (verifyToken_pass cfg (mkReq h None None None) _ _ _ _ Hc
               (jwt_verify_live _ _ _ _ _ _ Hlive)).
    apply isAdmin_forbidden. simpl. congruence.
  + exists InvalidToken. split; [repeat constructor|].
    apply (verifyToken_invalid cfg (mkReq h None None None) _ _ _ Hc).
    by apply jwt_verify_expired.
Qed.

End Sessions.

(** ** Upload intake *)

Lemma removeUploadedFiles_spec stored w :
∃ w', removeUploadedFiles stored w = (Val tt, w')
      ∧ db w' = db w ∧ env w' = env w
      ∧ disk w' = disk w ∖ paths stored.
Proof.
revert w. induction stored as [|f r IH]; intros w; simpl.
- exists w. unfold paths. simpl. repeat split; set_solver.
- unfold bind, fs_unlinkSync, modify.
  destruct (IH (log (FsUnlink (path_of f)) (set_disk (disk w ∖ {[path_of f]}) w)))
    as (w' & -> & Hdb & Henv & Hdisk).
  exists w'. rewrite Hdb, Henv, Hdisk. unfold paths. simpl.
  repeat split; set_solver.
Qed.

(** The filter is the only place where the content type is looked at. *)
Lemma fileFilter_Some file :
is_Some (fileFilter file)
↔ fieldname file = "passportPhotos" ∧ mimetype file ∉ allowed_photo_types.
Proof.
unfold fileFilter.
destruct (String.eqb_spec (fieldname file) "passportPhotos") as [Hf|Hf]; simpl.
- destruct (decide (mimetype file ∈ allowed_photo_types)) as [Hm|Hm].
  + rewrite bool_decide_eq_true_2 by done. simpl.
    split; [by intros [x [=]]|]. by intros [_ ?].
  + rewrite bool_decide_eq_false_2 by done. simpl.
    split; [done|by eexists].
- split; [by intros [x [=]]|]. by intros [? _].
Qed.

(** The parts behind a failed one add files, never remove any, and only
    under the names of those parts; none when the parser delivers no
    more part. *)
Lemma late_spec todo : ∀ delivered w,
∃ w', late todo delivered w = (Val tt, w')
      ∧ db w' = db w ∧ env w' = env w
      ∧ disk w ⊆ disk w'
      ∧ disk w' ⊆ disk w ∪ paths (stored_as (clock (env w)) <$> todo)
      ∧ (delivered = [] → disk w' = disk w).
Proof.
induction todo as [|p r IH]; intros delivered w.
- exists w. destruct delivered as [|[] d]; simpl; repeat split; set_solver.
- destruct delivered as [|[] d]; simpl.
  + exists w. repeat split; set_solver.
  + destruct (fileFilter p) as [msg|] eqn:Hf.
    * destruct (IH d w) as (w' & -> & Hdb & Henv & Hlo & Hhi & _).
      exists w'. repeat split; [done..| |done].
      etrans; [exact Hhi|]. unfold paths. simpl. set_solver.
    * unfold bind at 1, Date_now, gets. unfold bind at 1, fs_write, modify.
      set (f := mkFile p (storage_filename (clock (env w)) p)).
      set (w1 := log (FsWrite (path_of f)) (set_disk ({[path_of f]} ∪ disk w) w)).
      destruct (IH d w1) as (w' & -> & Hdb & Henv & Hlo & Hhi & _).
      exists w'. repeat split; [done..| | |done].
      -- etrans; [|exact Hlo]. unfold w1. simpl. set_solver.
      -- etrans; [exact Hhi|]. unfold paths, w1, stored_as. simpl. set_solver.
  + destruct (IH d w) as (w' & -> & Hdb & Henv & Hlo & Hhi & _).
    exists w'. repeat split; [done..| |done].
    etrans; [exact Hhi|]. unfold paths. simpl. set_solver.
Qed.

(** After a failure the files stored so far are gone; what may be on
    disk beyond the rest are files of the parts behind the failed one. *)
Lemma abort_spec stored rest msg w :
∃ w', abort stored rest msg w = (Val (inl msg), w')
      ∧ db w' = db w ∧ env w' = env w
      ∧ disk w' ⊆ (disk w ∖ paths stored)
               ∪ paths (stored_as (clock (env w)) <$> rest)
      ∧ (late_parts (env w) = [] → disk w' = disk w ∖ paths stored).
Proof.
unfold abort. unfold bind at 1.
destruct (removeUploadedFiles_spec stored w) as (w1 & -> & Hdb1 & Henv1 & Hdisk1).
unfold bind at 1, gets. unfold bind, ret.
destruct (late_spec rest (late_parts (env w1)) w1)
  as (w' & -> & Hdb & Henv & Hlo & Hhi & Hnone).
exists w'. rewrite Hdb, Henv, Hdb1, Henv1. repeat split.
- rewrite <- Hdisk1, <- Henv1. exact Hhi.
- intros Hl. rewrite <- Hdisk1. apply Hnone. by rewrite Henv1.
Qed.

(** What the intake leaves behind. On success every part is stored under
    its generated name. On failure the parts before the failed one were
    stored and removed again; a file that is new on disk comes from a
    part behind the failed one, and there is none when the parser
    delivers no more part. The store and the environment are not
    touched. *)
Lemma intake_spec todo : ∀ stored w,
∃ r w', intake todo stored w = (Val r, w')
        ∧ db w' = db w ∧ env w' = env w
        ∧ match r with
          | inr fs =>
              fs = (stored ++ (stored_as (clock (env w)) <$> todo))%list
              ∧ disk w' = paths (stored_as (clock (env w)) <$> todo) ∪ disk w
              ∧ Forall (λ p, fileFilter p = None ∧ bytes p ≤ fileSize) todo
          | inl msg =>
              ∃ before culprit after,
                fails_at todo before culprit after
                ∧ disk w' ⊆ (disk w ∖ paths stored)
                         ∪ paths (stored_as (clock (env w)) <$> after)
                ∧ (late_parts (env w) = [] → disk w' ⊆ disk w ∖ paths stored)
          end.
Proof.
induction todo as [|p r IH]; intros stored w; simpl.
- exists (inr stored), w. unfold paths. simpl. rewrite app_nil_r.
  repeat split; [set_solver|constructor].
- destruct (fileFilter p) as [msg|] eqn:Hf.
  + destruct (abort_spec stored r msg w) as (w' & -> & Hdb & Henv & Hhi & Hnone).
    exists (inl msg), w'. repeat split; [done..|].
    exists [], p, r. repeat split; [constructor|left; by rewrite Hf|done|].
    intros Hl. by rewrite (Hnone Hl).
  + unfold bind at 1, Date_now, gets. unfold bind at 1, fs_write, modify.
    set (f := mkFile p (storage_filename (clock (env w)) p)).
    set (w1 := log (FsWrite (path_of f)) (set_disk ({[path_of f]} ∪ disk w) w)).
    destruct (Z.ltb_spec fileSize (bytes p)) as [Hbig|Hfit].
    * destruct (abort_spec (stored ++ [f]) r "File too large" w1)
        as (w' & -> & Hdb & Henv & Hhi & Hnone).
      exists (inl "File too large"), w'. repeat split; [done..|].
      exists [], p, r. repeat split; [constructor|by right| |].
      -- etrans; [exact Hhi|]. unfold paths, w1. rewrite fmap_app. simpl.
         set_solver.
      -- intros Hl. rewrite (Hnone Hl). unfold paths, w1. rewrite fmap_app.
         simpl. set_solver.
    * destruct (IH (stored ++ [f])%list w1) as (res & w' & -> & Hdb & Henv & Hres).
      exists res, w'. repeat split; [done..|].
      destruct res as [msg|fs].
      -- destruct Hres as (before & culprit & after & (-> & Hall & Hbad) & Hhi & Hnone).
         exists (p :: before), culprit, after. repeat split; [by constructor|done| |].
         ++ etrans; [exact Hhi|]. unfold paths, w1. rewrite fmap_app. simpl.
            set_solver.
         ++ intros Hl. etrans; [exact (Hnone Hl)|]. unfold paths, w1.
            rewrite fmap_app. simpl. set_solver.
      -- destruct Hres as (-> & Hdisk & Hall). repeat split.
         ++ by rewrite <- app_assoc.
         ++ rewrite Hdisk. unfold paths, w1, stored_as. simpl. set_solver.
         ++ by constructor.
Qed.

(** A part that fails makes the whole intake fail. *)
Lemma intake_failure todo w :
Exists (λ p, is_Some (fileFilter p) ∨ fileSize < bytes p) todo →
∃ msg w' before culprit after,
  intake todo [] w = (Val (inl msg), w')
  ∧ db w' = db w ∧ env w' = env w
  ∧ fails_at todo before culprit after
  ∧ disk w' ⊆ disk w ∪ paths (stored_as (clock (env w)) <$> after)
  ∧ (late_parts (env w) = [] → disk w' ⊆ disk w).
Proof.
intros Hbad.
destruct (intake_spec todo [] w) as ([msg|fs] & w' & Hi & Hdb & Henv & Hres).
- destruct Hres as (before & culprit & after & Hat & Hhi & Hnone).
  exists msg, w', before, culprit, after. split_and!; [done..| |].
  + etrans; [exact Hhi|]. set_solver.
  + intros Hl. etrans; [exact (Hnone Hl)|]. set_solver.
- destruct Hres as (_ & _ & Hall). exfalso.
  apply Exists_exists in Hbad as (p & Hin & Hp).
  rewrite Forall_forall in Hall. destruct (Hall p Hin) as [Hf Hs].
  destruct Hp as [[x Hx]|Hp]; [congruence|lia].
Qed.

Lemma intake_accepts todo w :
Forall (λ p, fileFilter p = None ∧ bytes p ≤ fileSize) todo →
∃ w', intake todo [] w = (Val (inr (stored_as (clock (env w)) <$> todo)), w')
      ∧ db w' = db w ∧ env w' = env w
      ∧ disk w' = paths (stored_as (clock (env w)) <$> todo) ∪ disk w.
Proof.
intros Hok.
destruct (intake_spec todo [] w) as ([msg|fs] & w' & Hi & Hdb & Henv & Hres).
- destruct Hres as (before & culprit & after & (-> & _ & Hbad) & _). exfalso.
  rewrite Forall_forall in Hok.
  destruct (Hok culprit) as [Hf Hs]; [set_solver|].
  destruct Hbad as [[x Hx]|Hp]; [congruence|lia].
- destruct Hres as (-> & Hdisk & _). by exists w'.
Qed.

Section Uploads.
Context {P : Platform} (cfg : Config).

(** An admin's request reaches the handler of its route. *)
Lemma admin_request_passes h w handler :
admin_request cfg h w →
∃ id,
  verifyToken cfg (mkReq h None None None) (λ req, isAdmin req handler) w
  = handler (mkReq h (Some id) (Some "admin") None) w.
Proof.
intros (token & decoded & Hc & Hv & Hrole). exists (jwt_id decoded).
rewrite (verifyToken_pass cfg (mkReq h None None None) _ _ token decoded) by done.
rewrite isAdmin_pass by (simpl; congruence). by rewrite Hrole.
Qed.

Lemma attach_keeps_text fs : ∀ d,
News.d_title (fold_left attach fs d) = News.d_title d
∧ News.d_description (fold_left attach fs d) = News.d_description d.
Proof.
induction fs as [|f fs IH]; intros d; simpl; [done|].
destruct (IH (attach d f)) as [-> ->]. unfold attach.
by repeat case_match.
Qed.

(** C4. A create-member request of an admin with a file under
    [passportPhotos] whose content type is not image/jpeg, image/jpg or
    image/png is answered 400, and the store is exactly as before (no
    Member, not even an id drawn). The upload fails at the first part
    that the filter refuses or that is larger than 10 MiB: every file on
    disk afterwards was there before the request or is the stored form
    of a part behind that one; and when the parser delivers no part
    after the failure, every file on disk afterwards was there before
    the request. *)
Theorem bad_photo_rejected h w ps p :
route h = PostMembers →
admin_request cfg h w →
parts h = Some ps →
p ∈ ps →
fieldname p = "passportPhotos" →
mimetype p ∉ allowed_photo_types →
∃ message w' before culprit after,
  app cfg h w = (Val (json 400 (Message message)), w')
  ∧ db w' = db w
  ∧ members (db w') = members (db w)
  ∧ fails_at ps before culprit after
  ∧ disk w' ⊆ disk w ∪ paths (stored_as (clock (env w)) <$> after)
  ∧ (late_parts (env w) = [] → disk w' ⊆ disk w).
Proof.
intros Hroute Hadmin Hparts Hin Hfield Htype.
unfold app. rewrite Hroute.
destruct (admin_request_passes h w create_member Hadmin) as [id ->].
unfold create_member, upload. simpl. rewrite Hparts. unfold bind.
destruct (intake_failure ps w)
  as (msg & w' & before & culprit & after & -> & Hdb & _ & Hat & Hhi & Hnone).
{ apply Exists_exists. exists p. split; [done|]. left.
  by apply fileFilter_Some. }
exists msg, w', before, culprit, after. by rewrite Hdb.
Qed.

(** C10. The filter refuses a file exactly when its field name is
    "passportPhotos" and its content type is outside the allow-list.
    So when no part of a request is named "passportPhotos" and none
    exceeds 10 MiB, the upload step passes every file on, stored on disk
    under its generated name, whatever the content types. In particular
    an admin's create-news request with title, description and such
    parts is answered 201, its files are on disk and the new item refers
    to those sent as "image" and "video". *)
Theorem content_type_checked_only_for_passport_photos :
(∀ file,
   is_Some (fileFilter file)
   ↔ fieldname file = "passportPhotos" ∧ mimetype file ∉ allowed_photo_types)
∧ (∀ req cb w ps,
     parts (http req) = Some ps →
     Forall (λ p, fieldname p ≠ "passportPhotos" ∧ bytes p ≤ fileSize) ps →
     let fs := stored_as (clock (env w)) <$> ps in
     ∃ w', upload req cb w
           = cb None (mkReq (http req) (userId req) (userRole req) (Some fs)) w'
           ∧ db w' = db w ∧ env w' = env w
           ∧ disk w' = paths fs ∪ disk w)
∧ (∀ h w ps title description,
     route h = PostNews →
     admin_request cfg h w →
     healthy (env w) →
     parts h = Some ps →
     Forall (λ p, fieldname p ≠ "passportPhotos" ∧ bytes p ≤ fileSize) ps →
     body h !! "title" = Some title → title ≠ "" →
     body h !! "description" = Some description → description ≠ "" →
     let now := clock (env w) in
     let fs := stored_as now <$> ps in
     let data := newsData title description (Some fs) in
     ∃ w', app cfg h w = (Val (json 201 (Message "News added successfully")), w')
           ∧ disk w' = paths fs ∪ disk w
           ∧ news (db w')
             = (news (db w)
                ++ [News.mk (next_id (db w)) title description
                      (News.d_imageUrl data) (News.d_videoUrl data) now])%list).
Proof.
assert (∀ ps, Forall (λ p, fieldname p ≠ "passportPhotos" ∧ bytes p ≤ fileSize) ps →
              Forall (λ p, fileFilter p = None ∧ bytes p ≤ fileSize) ps) as Hok.
{ intros ps H. eapply Forall_impl; [exact H|]. intros p [Hf Hs]. split; [|done].
  destruct (fileFilter p) eqn:E; [|done].
  destruct (proj1 (fileFilter_Some p)) as [? _]; [by rewrite E|done]. }
split; [exact fileFilter_Some|]. split.
- intros req cb w ps Hparts Hall fs. unfold upload. rewrite Hparts. unfold bind.
  destruct (intake_accepts ps w (Hok _ Hall)) as (w' & -> & Hdb & Henv & Hdisk).
  by exists w'.
- intros h w ps title description Hroute Hadmin Hh Hparts Hall Ht Htne Hd Hdne
    now fs data.
  unfold app. rewrite Hroute.
  destruct (admin_request_passes h w create_news Hadmin) as [id ->].
  unfold create_news, news_upload, upload. simpl. rewrite Hparts. unfold bind at 1.
  destruct (intake_accepts ps w (Hok _ Hall)) as (w1 & -> & Hdb & Henv & Hdisk).
  simpl. rewrite Ht, Hd, !truthy_Some by done. simpl.
  unfold bind at 1, new_id. unfold bind at 1, News_save.
  unfold bind at 1, Date_now, gets.
  rewrite db_call_healthy by (simpl; by rewrite Henv).
  simpl. eexists. split; [reflexivity|]. simpl.
  destruct (attach_keeps_text (stored_as (clock (env w)) <$> ps)
              (News.mkData title description None None)) as [-> ->].
  by rewrite Hdb, Henv, Hdisk.
Qed.

End Uploads.

(** ** Creating a member *)

Lemma digit_facts c :
is_digit c = true →
JS.is_space c = false
∧ Ascii.eqb c "-" = false ∧ Ascii.eqb c "+" = false
∧ Ascii.eqb c "x" = false ∧ Ascii.eqb c "X" = false
∧ JS.digit_of 10 c = Some (Z.of_nat (nat_of_ascii c) - 48).
Proof.
destruct c as [[] [] [] [] [] [] [] []]; vm_compute; intros H;
  first [discriminate H | done].
Qed.

Lemma digits_numeral s : ∀ a,
all_digits s = true → JS.digits 10 s (Some a) = Some (decimal_from a s).
Proof.
induction s as [|c r IH]; intros a; simpl; [done|].
intros [Hc Hr]%andb_prop.
destruct (digit_facts c Hc) as (_ & _ & _ & _ & _ & ->). by apply IH.
Qed.

(** Below 2^53 every integer is its own Number value. *)
Lemma toNumber_exact n : n < 2 ^ 53 → JS.toNumber n = JS.Num n.
Proof.
intros Hn. unfold JS.toNumber.
by destruct (Z.ltb_spec n (2 ^ 53)); [|lia].
Qed.

(** The Number value of a non-negative integer is a number or plus
    infinity, so a plus sign leaves it as it is. *)
Lemma toNumber_positive n :
match JS.toNumber n with
| JS.Num v => JS.Num (1 * v)
| JS.Infinity _ => JS.Infinity (1 <? 0)
| JS.NaN => JS.NaN
end = JS.toNumber n.
Proof.
destruct (JS.toNumber n) as [|v|negative] eqn:E; [done|f_equal; lia|].
unfold JS.toNumber in E. repeat case_match; by simplify_eq.
Qed.

(** On a numeric string [parseInt] is the Number value of the decimal
    value. *)
Lemma parseInt_numeral s : numeral s → JS.parseInt s = JS.toNumber (decimal s).
Proof.
intros [Hne Hd]. destruct s as [|c r]; [done|]. clear Hne.
simpl in Hd. apply andb_prop in Hd as [Hc Hr].
destruct (digit_facts c Hc) as (Hsp & Hm & Hp & _ & _ & Hdig).
unfold JS.parseInt. simpl. rewrite Hsp, Hm, Hp.
assert (JS.digits 10 (String c r) None = Some (decimal (String c r))) as Hval.
{ simpl. rewrite Hdig. unfold decimal. simpl. by apply digits_numeral. }
destruct r as [|c1 r1].
- rewrite Hval. apply toNumber_positive.
- simpl in Hr. apply andb_prop in Hr as [Hc1 _].
  destruct (digit_facts c1 Hc1) as (_ & _ & _ & -> & -> & _).
  rewrite andb_false_r. rewrite Hval. apply toNumber_positive.
Qed.

(** From 2^53 on [parseInt] rounds: 2^53 + 1 lies half way between two
    doubles and goes to the even one; a sign, a hexadecimal prefix and
    trailing text are handled as in JavaScript. *)
Example parseInt_rounds :
JS.parseInt "9007199254740993" = JS.Num 9007199254740992
∧ JS.parseInt "9007199254740995" = JS.Num 9007199254740996
∧ JS.parseInt " -12 years" = JS.Num (-12)
∧ JS.parseInt "0x1F" = JS.Num 31
∧ JS.parseInt "many" = JS.NaN.
Proof. by vm_compute. Qed.

Lemma number_defined v : v ≠ JS.NaN → Member.number v = Some v.
Proof. by destruct v. Qed.

Lemma required_truthy v : JS.truthy v = true → Member.required v = Some (JS.str v).
Proof. unfold Member.required. destruct v as [s|]; [by intros ->|done]. Qed.

Lemma required_enum_truthy e v :
JS.truthy v = true → JS.str v ∈ e → Member.required_enum e v = Some (JS.str v).
Proof.
intros Ht He. unfold Member.required_enum. rewrite required_truthy by done.
by rewrite bool_decide_eq_true_2.
Qed.

Lemma filled_existsb (b : gmap string string) :
filled b → existsb (λ k, negb (JS.truthy (b !! k))) checked_fields = false.
Proof.
intros H. apply not_true_is_false. intros (k & Hin & Hk)%existsb_exists.
unfold filled in H. rewrite Forall_forall in H.
rewrite (H k) in Hk by by apply list_elem_of_In. done.
Qed.

Lemma unfilled_existsb (b : gmap string string) k :
k ∈ checked_fields → JS.truthy (b !! k) = false →
existsb (λ k, negb (JS.truthy (b !! k))) checked_fields = true.
Proof.
intros Hin Hk. apply existsb_exists. exists k.
split; [by apply list_elem_of_In|by rewrite Hk].
Qed.

Section Members.
Context {P : Platform} (cfg : Config).

(** After the gates and a successful upload step, the create handler
    runs on the stored files. *)
Lemma create_member_after_upload h w :
admin_request cfg h w →
acceptable h →
let fs := intaken (clock (env w)) h in
∃ w1,
  db w1 = db w ∧ env w1 = env w
  ∧ disk w1 = paths (default [] fs) ∪ disk w
  ∧ app cfg (mkHttp PostMembers (authorization h) (body h) (query_search h)
               (params_id h) (parts h)) w
    = (if existsb (λ k, negb (JS.truthy (body h !! k))) checked_fields
       then ret (json 400 (Message "All required fields must be filled"))
       else
         id <- new_id ;;
         try_catch
           (member <- Member_save id (memberData (body h) fs) ;;
            ret (json 201 (MemberBody member)))
           (λ _, ret (json 500 (Message "Error saving member")))) w1.
Proof.
intros Hadmin Hparts fs. unfold app. simpl.
set (h' := mkHttp _ _ _ _ _ _).
assert (admin_request cfg h' w) as Hadmin' by done.
destruct (admin_request_passes cfg h' w create_member Hadmin') as [id ->].
unfold create_member, upload. simpl. subst fs. unfold intaken, acceptable in *.
destruct (parts h) as [ps|]; simpl.
- unfold bind at 1.
  destruct (intake_accepts ps w Hparts) as (w1 & -> & Hdb & Henv & Hdisk).
  by exists w1.
- exists w. do 2 (split; [done|]). split; [|done].
  unfold paths. simpl. set_solver.
Qed.

(** A filled form whose dates and experience parse and whose enumerated
    fields are in range passes the schema. *)
Lemma validate_filled id (b : gmap string string) fs born enrolled :
filled b →
Date_parse (JS.str (b !! "dateOfBirth")) = Some born →
Date_parse (JS.str (b !! "dateEnrollment")) = Some enrolled →
JS.parseInt (JS.str (b !! "farmingExperience")) ≠ JS.NaN →
JS.str (b !! "gender") ∈ Member.gender_enum →
JS.str (b !! "enrollmentStatus") ∈ Member.enrollmentStatus_enum →
JS.str (b !! "irrigationMethod") ∈ Member.irrigationMethod_enum →
(∀ s, b !! "membershipStatus" = Some s → s ∈ Member.membershipStatus_enum) →
Member.validate id (memberData b fs)
= Some (Member.mk id (JS.str (b !! "surname")) (JS.str (b !! "otherNames")) born
          (JS.str (b !! "gender")) (JS.str (b !! "occupation"))
          (JS.str (b !! "qualification")) (JS.str (b !! "localGovernmentOfOrigin"))
          (JS.str (b !! "residentialAddress")) (JS.str (b !! "phone"))
          (JS.str (b !! "nextOfKin")) (JS.str (b !! "enrollmentStatus")) enrolled
          (JS.str (b !! "shortFarmHistory"))
          (b !! "refereeLgaCoordinator") (b !! "refereeGroupCoordinator")
          (uploads_url <$> default [] fs)
          (JS.str (b !! "cropVariety"))
          (JS.parseInt (JS.str (b !! "farmingExperience")))
          (JS.str (b !! "irrigationMethod"))
          (default "Pending" (b !! "membershipStatus"))
          (JS.str (b !! "location")) (JS.str (b !! "farmSize"))
          (JS.str (b !! "contact"))).
Proof.
intros Hfilled Hborn Henr Hyears Hg He Hi Hs.
unfold filled, checked_fields in Hfilled.
repeat (apply Forall_cons_1 in Hfilled as [? Hfilled]). clear Hfilled.
assert (Member.required_enum Member.membershipStatus_enum
          (match b !! "membershipStatus" with None => Some "Pending" | v => v end)
        = Some (default "Pending" (b !! "membershipStatus"))) as Hstatus.
{ destruct (b !! "membershipStatus") as [s|]; [|done].
  specialize (Hs s eq_refl). unfold Member.membershipStatus_enum in Hs.
  repeat (apply elem_of_cons in Hs as [->|Hs]); try done.
  by apply elem_of_nil in Hs. }
unfold Member.validate, memberData. simpl.
rewrite Hstatus, Hborn, Henr, (number_defined _ Hyears).
rewrite !required_enum_truthy by done.
rewrite !required_truthy by done. simpl.
do 2 f_equal. by destruct fs as [[|f fs]|].
Qed.

(** C5, as the code has it. For a create-member request of an admin
    whose upload step succeeds, served while the store works. If one of
    the nineteen fields the handler tests is absent or empty, the answer
    is 400, the store is untouched and the files the request uploaded
    are on disk. If all nineteen are filled, both dates parse,
    [parseInt] of the experience is not NaN and gender, enrolment
    status, irrigation method and (when supplied) membership status hold
    a value of their enumeration, the answer is 201 and one Member is
    appended: its farmingExperience is [parseInt] of the supplied
    string, which for a string of decimal digits is the double nearest
    to its decimal value, and that value itself when it is below 2^53;
    its two dates are the parsed dates; its membership status is the
    supplied one, "Pending" when none was supplied; its photo references
    are those of the uploaded files; its surname and phone are as
    supplied. *)
Theorem create_member_outcome h w :
route h = PostMembers →
admin_request cfg h w →
healthy (env w) →
acceptable h →
let b := body h in
let fs := intaken (clock (env w)) h in
let experience := JS.str (b !! "farmingExperience") in
(∀ k, k ∈ checked_fields → JS.truthy (b !! k) = false →
   ∃ w', app cfg h w
         = (Val (json 400 (Message "All required fields must be filled")), w')
         ∧ db w' = db w
         ∧ disk w' = paths (default [] fs) ∪ disk w)
∧ (∀ born enrolled,
     filled b →
     Date_parse (JS.str (b !! "dateOfBirth")) = Some born →
     Date_parse (JS.str (b !! "dateEnrollment")) = Some enrolled →
     JS.parseInt experience ≠ JS.NaN →
     JS.str (b !! "gender") ∈ Member.gender_enum →
     JS.str (b !! "enrollmentStatus") ∈ Member.enrollmentStatus_enum →
     JS.str (b !! "irrigationMethod") ∈ Member.irrigationMethod_enum →
     (∀ s, b !! "membershipStatus" = Some s → s ∈ Member.membershipStatus_enum) →
     ∃ m w',
       app cfg h w = (Val (json 201 (MemberBody m)), w')
       ∧ members (db w') = (members (db w) ++ [m])%list
       ∧ Member.farmingExperience m = JS.parseInt experience
       ∧ (numeral experience →
          Member.farmingExperience m = JS.toNumber (decimal experience))
       ∧ (numeral experience → decimal experience < 2 ^ 53 →
          Member.farmingExperience m = JS.Num (decimal experience))
       ∧ Member.dateOfBirth m = born
       ∧ Member.dateEnrollment m = enrolled
       ∧ Member.membershipStatus m = default "Pending" (b !! "membershipStatus")
       ∧ Member.passportPhotos m = uploads_url <$> default [] fs
       ∧ Member.surname m = JS.str (b !! "surname")
       ∧ Member.phone m = JS.str (b !! "phone")).
Proof.
intros Hroute Hadmin Hh Hparts b fs experience.
destruct (create_member_after_upload h w Hadmin Hparts) as (w1 & Hdb & Henv & Hdisk & Happ).
assert (mkHttp PostMembers (authorization h) (body h) (query_search h)
          (params_id h) (parts h) = h) as Hh'.
{ destruct h. simpl in *. by subst. }
rewrite Hh' in Happ. clear Hh'. rewrite Happ. fold b. fold fs. split.
- intros k Hin Hk. rewrite (unfilled_existsb b k) by done.
  exists w1. by rewrite Hdb.
- intros born enrolled Hfilled Hborn Henr Hyears Hg He Hi Hs.
  rewrite filled_existsb by done.
  unfold bind at 1, new_id. unfold try_catch, bind, Member_save.
  rewrite db_call_healthy by (simpl; by rewrite Henv). simpl.
  rewrite (validate_filled _ b fs born enrolled) by done. simpl.
  eexists _, _. split; [reflexivity|]. simpl. rewrite Hdb.
  split; [done|]. split; [done|]. fold experience.
  split; [by intros Hnum; apply parseInt_numeral|].
  split; [|done].
  intros Hnum Hsmall. rewrite (parseInt_numeral _ Hnum). by apply toNumber_exact.
Qed.

End Members.

(** ** Listing members *)

Section Listing.
Context {P : Platform} (cfg : Config).

(** What the listing answers: the stored members, filtered by the code's
    predicate on the lower-cased query when a query was given. *)
Lemma list_members_answer h w :
route h = GetMembers →
admin_request cfg h w →
healthy (env w) →
app cfg h w
= (Val (json 200 (MembersBody
          (if JS.truthy (query_search h)
           then List.filter (member_matches (JS.toLowerCase (JS.str (query_search h))))
                  (members (db w))
           else members (db w)))),
   log (DbRead Members) w).
Proof.
intros Hroute Hadmin Hh. unfold app. rewrite Hroute.
destruct (admin_request_passes cfg h w list_members Hadmin) as [id ->].
unfold list_members, bind, Member_find, ret. simpl.
rewrite db_call_healthy by done. simpl.
destruct (query_search h) as [[|c q]|]; simpl; try by destruct w as [[] ? ? ?].
Qed.

(** The code's predicate is the specified one on every member whose
    phone number holds no upper-case letter. *)
Lemma member_matches_spec query m :
JS.toLowerCase (Member.phone m) = Member.phone m →
member_matches (JS.toLowerCase query) m = matches_spec query m.
Proof.
intros Hphone. unfold member_matches, matches_spec, contains_ci.
by rewrite Hphone.
Qed.

End Listing.

(** ** Deleting news *)

Lemma remove_first_ids id l :
NoDup (News._id <$> l) →
∀ m, m ∈ remove_first (by_news_id id) l → News._id m ≠ id.
Proof.
induction l as [|x r IH]; simpl; intros Hnd m Hm; [by apply elem_of_nil in Hm|].
apply NoDup_cons in Hnd as [Hx Hr]. unfold by_news_id at 1 in Hm.
destruct (Nat.eqb_spec (News._id x) id) as [Heq|Hne].
- intros Hmid. apply Hx. rewrite Heq, <- Hmid. by apply list_elem_of_fmap_2.
- apply elem_of_cons in Hm as [->|Hm]; [done|by apply IH].
Qed.

Lemma unlink_media_spec url w :
∃ w', unlink_media url w = (Val tt, w')
      ∧ db w' = db w ∧ env w' = env w
      ∧ disk w' = (if JS.truthy url then disk w ∖ {["public" ++ JS.str url]} else disk w).
Proof.
unfold unlink_media. destruct (JS.truthy url); [|by exists w].
unfold bind, fs_existsSync, gets. simpl.
destruct (decide ("public" ++ JS.str url ∈ disk w)) as [Hin|Hout].
- rewrite bool_decide_eq_true_2 by done. by eexists.
- rewrite bool_decide_eq_false_2 by done. exists w.
  repeat split. set_solver.
Qed.

Section NewsItems.
Context {P : Platform} (cfg : Config).

Lemma list_news_answer e l w :
healthy e → route l = GetNews →
serve cfg e l w
= (Val (json 200 (NewsBody (merge_sort newer (news (db w))))),
   log (DbRead NewsItems) (set_env e w)).
Proof.
intros He Hl. unfold serve, app. rewrite Hl.
unfold list_news, bind, News_find_sorted, ret.
rewrite db_call_healthy by done. simpl. by destruct w as [[] ? ? ?].
Qed.

(** C7. An admin's delete request for the id of a stored News item,
    served while the store works (ids being unique): the answer is 200;
    the files its image and video references point to are no longer on
    disk and no file was added; the item is removed from the store, and
    the next listing holds neither it nor any item with that id. For an
    id that is not stored the answer is 404, and disk and store are as
    before. *)
Theorem delete_news_outcome h w :
route h = DeleteNews →
admin_request cfg h w →
healthy (env w) →
NoDup (News._id <$> news (db w)) →
match find (by_news_id (params_id h)) (news (db w)) with
| Some n =>
    ∃ w',
      app cfg h w = (Val (json 200 (Message "News deleted successfully")), w')
      ∧ (∀ url, News.imageUrl n = Some url → url ≠ "" → ("public" ++ url) ∉ disk w')
      ∧ (∀ url, News.videoUrl n = Some url → url ≠ "" → ("public" ++ url) ∉ disk w')
      ∧ disk w' ⊆ disk w
      ∧ news (db w') = remove_first (by_news_id (params_id h)) (news (db w))
      ∧ (n ∉ news (db w'))
      ∧ ∀ e l,
          healthy e → route l = GetNews →
          ∃ items w'',
            serve cfg e l w' = (Val (json 200 (NewsBody items)), w'')
            ∧ (n ∉ items)
            ∧ ∀ m, m ∈ items → News._id m ≠ params_id h
| None =>
    ∃ w',
      app cfg h w = (Val (json 404 (Message "News not found")), w')
      ∧ disk w' = disk w
      ∧ db w' = db w
end.
Proof.
intros Hroute Hadmin Hh Hnd. unfold app. rewrite Hroute.
destruct (admin_request_passes cfg h w delete_news Hadmin) as [uid ->].
unfold delete_news, try_catch. simpl.
destruct (find _ _) as [n|] eqn:Hfind;
  unfold bind at 1, News_findById;
  rewrite db_call_healthy by done; simpl; rewrite Hfind.
- set (w0 := set_db (db w) (log (DbRead NewsItems) w)).
  unfold bind at 1.
  destruct (unlink_media_spec (News.imageUrl n) w0) as (w1 & -> & Hdb1 & Henv1 & Hdisk1).
  unfold bind at 1.
  destruct (unlink_media_spec (News.videoUrl n) w1) as (w2 & -> & Hdb2 & Henv2 & Hdisk2).
  unfold bind at 1, News_findByIdAndDelete.
  rewrite db_call_healthy by (by rewrite Henv2, Henv1). simpl.
  eexists. split; [reflexivity|]. simpl. rewrite Hdb2, Hdb1. simpl.
  assert (∀ m, m ∈ remove_first (by_news_id (params_id h)) (news (db w)) →
               News._id m ≠ params_id h) as Hgone by by apply remove_first_ids.
  assert (News._id n = params_id h) as Hid.
  { apply find_some in Hfind as [_ Hp]. by apply Nat.eqb_eq in Hp. }
  split; [|split; [|split; [|split; [done|split]]]].
  + intros url Hu Hne. rewrite Hdisk2, Hdisk1, Hu, truthy_Some by done.
    simpl. destruct (JS.truthy (News.videoUrl n)); set_solver.
  + intros url Hu Hne. rewrite Hdisk2, Hu, truthy_Some by done.
    simpl. set_solver.
  + rewrite Hdisk2, Hdisk1. simpl.
    destruct (JS.truthy (News.videoUrl n)), (JS.truthy (News.imageUrl n)); set_solver.
  + intros Hin. by apply (Hgone n Hin).
  + intros e l He Hl. eexists _, _. split; [by apply list_news_answer|].
    simpl.
    assert (∀ m, m ∈ merge_sort newer
                        (remove_first (by_news_id (params_id h)) (news (db w))) →
                 News._id m ≠ params_id h) as Hsorted.
    { intros m Hm. apply Hgone. by rewrite merge_sort_Permutation in Hm. }
    split; [|done]. intros Hin. by apply (Hsorted n Hin).
- eexists. split; [reflexivity|]. by destruct w as [[] ? ? ?].
Qed.

(** C8. A contact submission with name, email and message present,
    served while the store works, is answered 201 whether or not the
    mail relay accepts the notification, and the Contact is stored in
    both cases; when the relay fails the message of the answer is
    "Message saved, but email notification failed". *)
Theorem contact_saved_whatever_the_relay h w name email message :
route h = PostContact →
body h !! "name" = Some name → name ≠ "" →
body h !! "email" = Some email → email ≠ "" →
body h !! "message" = Some message → message ≠ "" →
healthy (env w) →
∃ w',
  app cfg h w
  = (Val (json 201 (Message (if relay_up (env w)
                             then "Message sent successfully"
                             else "Message saved, but email notification failed"))),
     w')
  ∧ contacts (db w')
    = (contacts (db w)
       ++ [Contact.mk (next_id (db w)) name email message (clock (env w))])%list
  ∧ MailSend ∈ trace w'.
Proof.
intros Hroute Hn Hnne He Hene Hm Hmne Hh. unfold app. rewrite Hroute.
unfold submit_contact. simpl. rewrite Hn, He, Hm, !truthy_Some by done. simpl.
unfold bind at 1, new_id. unfold bind at 1, Date_now, gets.
unfold bind at 1, Contact_save. rewrite db_call_healthy by done. simpl.
unfold try_catch, bind, sendMail, ret. simpl.
destruct (relay_up (env w)); (eexists; split; [reflexivity|]); simpl;
  (split; [done|]); set_solver.
Qed.

End NewsItems.

(** ** The properties on the reference platform *)

Lemma session_admin_request h w :
authorization h = Reference.session "admin" →
clock (env w) / 1000 < 3600 →
admin_request (P:=Reference.platform) Reference.cfg h w.
Proof.
intros Ha Hnow.
exists (Reference.sign 1 "admin" (JWT_SECRET Reference.cfg) expiresIn 0),
       (mkJwt 1 "admin" 0 3600).
split; [split; [by rewrite Ha|done]|]. split; [|done].
simpl. rewrite reference_verify_sign. change (0 + expiresIn) with 3600.
by rewrite (proj2 (Z.ltb_lt _ _) Hnow).
Qed.

Lemma non_admin_token_forbidden_witness :
app (P:=Reference.platform) Reference.cfg
  (Reference.request GetMembers (Reference.session "user") []) Reference.world0
= (Val (json 403 (Message "Admin access required")), Reference.world0).
Proof.
apply (non_admin_token_forbidden (P:=Reference.platform) Reference.cfg _ _
         (Reference.sign 1 "user" (JWT_SECRET Reference.cfg) expiresIn 0)
         (mkJwt 1 "user" 0 3600)).
- repeat constructor.
- split; [reflexivity|discriminate].
- vm_compute. reflexivity.
- discriminate.
Defined.

Lemma token_verification_witness :
app (P:=Reference.platform) Reference.cfg
  (Reference.request GetUser None []) Reference.world0
= (Val (json 401 (Message "Please login")), Reference.world0)
∧ app (P:=Reference.platform) Reference.cfg
    (Reference.request GetMembers (Some ("Bearer " ++ Reference.alice_token)) [])
    (set_env (Reference.calm 3606000) Reference.registered)
  = (Val (json 403 (Message "Invalid session")),
     set_env (Reference.calm 3606000) Reference.registered).
Proof.
split.
- destruct (token_verification (P:=Reference.platform) (L:=reference_laws)
              Reference.cfg (Reference.request GetUser None []) Reference.world0)
    as (Hmissing & _ & _).
  + repeat constructor.
  + apply Hmissing. reflexivity.
- destruct (token_verification (P:=Reference.platform) (L:=reference_laws)
              Reference.cfg
              (Reference.request GetMembers
                 (Some ("Bearer " ++ Reference.alice_token)) [])
              (set_env (Reference.calm 3606000) Reference.registered))
    as (_ & _ & Hissued).
  + repeat constructor.
  + destruct (Hissued (Reference.request PostLogin None Reference.alice)
                (set_env (Reference.calm 6000) Reference.registered)
                (log (DbRead Users) (set_env (Reference.calm 6000) Reference.registered))
                Reference.alice_token) as [_ Hlate].
    * reflexivity.
    * vm_compute. reflexivity.
    * apply Hlate.
      -- split; [vm_compute; reflexivity|discriminate].
      -- by vm_compute.
Defined.

Lemma register_then_login_witness :
∃ u w1,
  app (P:=Reference.platform) Reference.cfg
    (Reference.request PostRegister None Reference.alice) Reference.world0
  = (Val (json 201 (Message "Registered successfully")), w1)
  ∧ users (db w1) = [u]
  ∧ User.role u = "user".
Proof.
destruct (register_then_login (P:=Reference.platform) (L:=reference_laws)
            Reference.cfg (Reference.request PostRegister None Reference.alice)
            Reference.world0 "alice@farm.ng" "s3cret")
  as (u & w1 & Happ & Husers & _ & _ & Hrole & _).
- reflexivity.
- vm_compute. reflexivity.
- discriminate.
- vm_compute. reflexivity.
- discriminate.
- simpl. apply not_elem_of_nil.
- reflexivity.
- exists u, w1. split; [exact Happ|]. split; [exact Husers|exact Hrole].
Defined.

Lemma registered_accounts_never_admin_witness :
∃ err,
  err ∈ [InvalidToken; Forbidden]
  ∧ app (P:=Reference.platform) Reference.cfg
      (Reference.request DeleteNews (Some ("Bearer " ++ Reference.alice_token)) [])
      Reference.with_harvest
    = (Val (auth_response err), Reference.with_harvest).
Proof.
apply (proj2 (registered_accounts_never_admin (P:=Reference.platform)
                (L:=reference_laws) Reference.cfg)
         Reference.world0 Reference.alice_history 1%nat (Reference.calm 6000)
         (Reference.request PostLogin None Reference.alice) Reference.alice_token).
- intros u Hu. by apply elem_of_nil in Hu.
- reflexivity.
- reflexivity.
- vm_compute. reflexivity.
- repeat constructor.
- split; [vm_compute; reflexivity|discriminate].
Defined.

(** C4 as stated fails: an admin sends a PDF as passport photo and,
    behind it, a PNG; the parser still delivers the PNG after the
    failure. The answer is 400 and no Member is stored, yet the PNG of
    this request is on a disk that was empty before. *)
Lemma later_photo_stays_on_disk :
let h := mkHttp PostMembers (Reference.session "admin")
           (Reference.form Reference.member_form) None 0
           (Some [mkPart "passportPhotos" "cv.pdf" "application/pdf" 4096;
                  Reference.png "passportPhotos" "me.png" 2048]) in
let out := serve (P:=Reference.platform) Reference.cfg (Reference.lingering 0)
             h Reference.world0 in
out.1 = Val (json 400 (Message "Passport photo must be JPG, JPEG, or PNG"))
∧ members (db out.2) = []
∧ disk Reference.world0 = ∅
∧ "public/uploads/0-me.png" ∈ disk out.2.
Proof.
split_and!; [by vm_compute..|].
vm_compute disk. set_solver.
Qed.

Lemma bad_photo_rejected_witness :
∃ message w',
  app (P:=Reference.platform) Reference.cfg
    (mkHttp PostMembers (Reference.session "admin")
       (Reference.form Reference.member_form) None 0
       (Some [Reference.png "passportPhotos" "me.png" 2048;
              mkPart "passportPhotos" "cv.pdf" "application/pdf" 4096;
              Reference.png "passportPhotos" "farm.png" 1024]))
    (set_env (Reference.lingering 0) Reference.world0)
  = (Val (json 400 (Message message)), w')
  ∧ members (db w') = []
  ∧ disk w' ⊆ {["public/uploads/0-farm.png"]}.
Proof.
destruct (bad_photo_rejected (P:=Reference.platform) Reference.cfg
            (mkHttp PostMembers (Reference.session "admin")
               (Reference.form Reference.member_form) None 0
               (Some [Reference.png "passportPhotos" "me.png" 2048;
                      mkPart "passportPhotos" "cv.pdf" "application/pdf" 4096;
                      Reference.png "passportPhotos" "farm.png" 1024]))
            (set_env (Reference.lingering 0) Reference.world0)
            [Reference.png "passportPhotos" "me.png" 2048;
             mkPart "passportPhotos" "cv.pdf" "application/pdf" 4096;
             Reference.png "passportPhotos" "farm.png" 1024]
            (mkPart "passportPhotos" "cv.pdf" "application/pdf" 4096))
  as (message & w' & before & culprit & after & Happ & _ & Hmembers & Hat & Hdisk & _).
- reflexivity.
- apply session_admin_request; [reflexivity|by vm_compute].
- reflexivity.
- repeat constructor.
- reflexivity.
- compute_done.
- exists message, w'. split; [exact Happ|]. split; [exact Hmembers|].
  destruct Hat as (Hps & Hbefore & Hbad).
  assert (after = [Reference.png "passportPhotos" "farm.png" 1024]) as ->.
  { destruct before as [|b0 [|b1 [|b2 before]]]; simpl in Hps; simplify_eq.
    - destruct Hbad as [[x Hx]|Hbig]; [discriminate|].
      vm_compute in Hbig. discriminate.
    - reflexivity.
    - apply Forall_cons in Hbefore as [_ Hbefore].
      apply Forall_cons in Hbefore as [[Hf _] _]. discriminate.
    - destruct before; discriminate. }
  etrans; [exact Hdisk|]. vm_compute. set_solver.
Defined.

(** C5 as stated fails: on this request of an admin every tested field
    is filled, yet the gender is outside the schema's enumeration, the
    save throws and the answer is 500 with no Member stored, not 201. *)
Lemma unlisted_gender_is_a_server_error :
let h := mkHttp PostMembers (Reference.session "admin")
           (<["gender" := "Other"]> (Reference.form Reference.member_form))
           None 0 None in
let out := app (P:=Reference.platform) Reference.cfg h Reference.world0 in
forallb (λ k, JS.truthy (body h !! k)) checked_fields = true
∧ out.1 = Val (json 500 (Message "Error saving member"))
∧ members (db out.2) = [].
Proof. vm_compute. done. Qed.

Lemma create_member_outcome_witness :
∃ m w',
  app (P:=Reference.platform) Reference.cfg
    (mkHttp PostMembers (Reference.session "admin")
       (Reference.form Reference.member_form) None 0
       (Some [Reference.png "passportPhotos" "me.png" 2048]))
    Reference.world0
  = (Val (json 201 (MemberBody m)), w')
  ∧ members (db w') = [m]
  ∧ Member.farmingExperience m = JS.Num 12
  ∧ Member.membershipStatus m = "Pending"
  ∧ Member.passportPhotos m = ["/uploads/0-me.png"].
Proof.
destruct (create_member_outcome (P:=Reference.platform) Reference.cfg
            (mkHttp PostMembers (Reference.session "admin")
               (Reference.form Reference.member_form) None 0
               (Some [Reference.png "passportPhotos" "me.png" 2048]))
            Reference.world0) as [_ Hcreated].
- reflexivity.
- apply session_admin_request; [reflexivity|by vm_compute].
- reflexivity.
- repeat constructor. by vm_compute.
- destruct (Hcreated 946684800000 1710460800000)
    as (m & w' & Happ & Hmembers & _ & _ & Hyears & _ & _ & Hstatus & Hphotos & _).
  + unfold filled. apply Forall_forall. intros k Hk.
    repeat (apply elem_of_cons in Hk as [->|Hk]; [reflexivity|]).
    by apply elem_of_nil in Hk.
  + reflexivity.
  + reflexivity.
  + by vm_compute.
  + compute_done.
  + compute_done.
  + compute_done.
  + intros s Hs. vm_compute in Hs. discriminate Hs.
  + exists m, w'. split; [exact Happ|]. split; [exact Hmembers|].
    split; [|split; [exact Hstatus|exact Hphotos]].
    apply Hyears; [split; [by vm_compute|reflexivity]|by vm_compute].
Defined.

(** C6 at a failing input. The stored member's phone number contains
    "ext" as a case-insensitive substring, so the search for "ext" is to
    return her; the handler compares the lower-cased query with the phone
    number as stored, and the listing comes back empty. *)
Lemma search_misses_upper_case_phone :
let h := mkHttp GetMembers (Reference.session "admin") ∅ (Some "ext") 0 None in
let w := Reference.with_members [Reference.amina] in
contains_ci (Member.phone Reference.amina) "ext" = true
∧ matches_spec "ext" Reference.amina = true
∧ member_matches (JS.toLowerCase "ext") Reference.amina = false
∧ (app (P:=Reference.platform) Reference.cfg h w).1
  = Val (json 200 (MembersBody [])).
Proof. vm_compute. done. Qed.

Lemma delete_news_outcome_witness :
∃ w',
  app (P:=Reference.platform) Reference.cfg
    (mkHttp DeleteNews (Reference.session "admin") ∅ None 0 None)
    Reference.with_harvest
  = (Val (json 200 (Message "News deleted successfully")), w')
  ∧ ("public/uploads/5000-maize.png" ∉ disk w')
  ∧ news (db w') = [].
Proof.
pose proof (delete_news_outcome (P:=Reference.platform) Reference.cfg
              (mkHttp DeleteNews (Reference.session "admin") ∅ None 0 None)
              Reference.with_harvest) as H.
simpl in H.
destruct H as (w' & Happ & Himage & _ & _ & Hnews & _).
- reflexivity.
- apply session_admin_request; [reflexivity|by vm_compute].
- reflexivity.
- apply NoDup_singleton.
- exists w'. split; [exact Happ|]. split; [|exact Hnews].
  apply (Himage "/uploads/5000-maize.png"); [reflexivity|discriminate].
Defined.

Lemma contact_saved_whatever_the_relay_witness :
∃ w',
  app (P:=Reference.platform) Reference.cfg
    (Reference.request PostContact None
       [("name", "A"); ("email", "a@b.com"); ("message", "hi")])
    (set_env (mkEnv 1000 [] false 7 []) Reference.world0)
  = (Val (json 201 (Message "Message saved, but email notification failed")), w')
  ∧ contacts (db w') = [Contact.mk 0 "A" "a@b.com" "hi" 1000].
Proof.
destruct (contact_saved_whatever_the_relay (P:=Reference.platform) Reference.cfg
            (Reference.request PostContact None
               [("name", "A"); ("email", "a@b.com"); ("message", "hi")])
            (set_env (mkEnv 1000 [] false 7 []) Reference.world0)
            "A" "a@b.com" "hi") as (w' & Happ & Hcontacts & _).
- reflexivity.
- reflexivity.
- discriminate.
- reflexivity.
- discriminate.
- reflexivity.
- discriminate.
- reflexivity.
- exists w'. split; [exact Happ|exact Hcontacts].
Defined.

Lemma content_type_checked_only_for_passport_photos_witness :
∃ w',
  app (P:=Reference.platform) Reference.cfg
    (mkHttp PostNews (Reference.session "admin")
       (Reference.form [("title", "Harvest"); ("description", "The maize is in")])
       None 0 (Some [mkPart "image" "run.sh" "application/x-sh" 512]))
    Reference.world0
  = (Val (json 201 (Message "News added successfully")), w')
  ∧ disk w' = {["public/uploads/0-run.sh"]} ∪ ∅
  ∧ news (db w')
    = [News.mk 0 "Harvest" "The maize is in" (Some "/uploads/0-run.sh") None 0].
Proof.
destruct (proj2 (proj2 (content_type_checked_only_for_passport_photos
                          (P:=Reference.platform) Reference.cfg))
            (mkHttp PostNews (Reference.session "admin")
               (Reference.form [("title", "Harvest"); ("description", "The maize is in")])
               None 0 (Some [mkPart "image" "run.sh" "application/x-sh" 512]))
            Reference.world0
            [mkPart "image" "run.sh" "application/x-sh" 512]
            "Harvest" "The maize is in") as (w' & Happ & Hdisk & Hnews).
- reflexivity.
- apply session_admin_request; [reflexivity|by vm_compute].
- reflexivity.
- reflexivity.
- repeat constructor; [discriminate|by vm_compute].
- reflexivity.
- discriminate.
- reflexivity.
- discriminate.
- exists w'. split; [exact Happ|]. split.
  + rewrite Hdisk. unfold paths. simpl. set_solver.
  + exact Hnews.
Defined.

(** ** Further properties of the account routes *)

(** A store operation either fails, leaving the store alone, or has the
    effect of its body. *)
Lemma db_call_outcome {A} ev (op : Db → Result A * Db) w r w' :
db_call ev op w = (r, w') →
(r = Exn StoreError ∧ db w' = db w)
∨ (r = (op (db w)).1 ∧ db w' = (op (db w)).2).
Proof.
unfold db_call. simpl.
destruct (db_faults (env w)) as [|[] fs]; simpl.
- destruct (op (db w)) as [r1 d1]. intros [= <- <-]. by right.
- intros [= <- <-]. by left.
- destruct (op (db w)) as [r1 d1]. intros [= <- <-]. by right.
Qed.

Section AccountRoutes.
Context {P : Platform} (cfg : Config).

(** X1. A login for an email no account has, or with a password that
    does not match the stored hash, is answered 401 "Invalid email or
    password"; no token is issued and nothing but the lookup happens. *)
Theorem login_rejects_bad_credentials h w :
route h = PostLogin →
healthy (env w) →
(find (by_email (body h !! "email")) (users (db w)) = None
 ∨ ∃ u password,
     find (by_email (body h !! "email")) (users (db w)) = Some u
     ∧ body h !! "password" = Some password
     ∧ bcrypt_compare password (User.password u) = false) →
app cfg h w
= (Val (json 401 (Message "Invalid email or password")), log (DbRead Users) w).
Proof.
intros Hroute Hh Hbad. unfold app. rewrite Hroute.
unfold login, bind, User_findOne, compare_password, ret. simpl.
rewrite db_call_healthy by done. simpl.
destruct Hbad as [->|(u & p & -> & -> & Hc)]; simpl.
- by destruct w as [[] ? ? ?].
- rewrite Hc. simpl. by destruct w as [[] ? ? ?].
Qed.

(** X2. The login handler has no try/catch: when the account lookup
    fails in the store, or when an account is found and the body holds
    no password for bcrypt to compare, the exception leaves the handler
    and no response is produced. *)
Theorem login_exceptions_escape h w :
route h = PostLogin →
(∀ fs, db_faults (env w) = true :: fs →
   ∃ w', app cfg h w = (Exn StoreError, w') ∧ db w' = db w)
∧ (∀ u, healthy (env w) →
     find (by_email (body h !! "email")) (users (db w)) = Some u →
     body h !! "password" = None →
     ∃ w', app cfg h w = (Exn TypeError, w') ∧ db w' = db w).
Proof.
intros Hroute. unfold app. rewrite Hroute.
unfold login, bind, User_findOne, compare_password, throw. simpl. split.
- intros fs Hf. unfold db_call. simpl. rewrite Hf. by eexists.
- intros u Hh Hu Hp. rewrite db_call_healthy by done. simpl.
  rewrite Hu, Hp. by eexists.
Qed.

(** X3. The registration always answers, whatever the request and the
    state of the store: 201 exactly when it appended one account (the
    given email, role "user"), and otherwise 400 or 500 with the
    accounts as they were. *)
Theorem register_always_answers h w :
route h = PostRegister →
∃ resp w',
  app cfg h w = (Val resp, w')
  ∧ ((status resp = 201%nat
      ∧ ∃ u, users (db w') = (users (db w) ++ [u])%list
             ∧ body h !! "email" = Some (User.email u)
             ∧ User.role u = "user")
     ∨ (status resp ∈ [400%nat; 500%nat] ∧ users (db w') = users (db w))).
Proof.
intros Hroute. unfold app. rewrite Hroute.
destruct (register (mkReq h None None None) w) as [r w'] eqn:E.
assert (∀ code msg (w1 : World),
          code ∈ [400%nat; 500%nat] → users (db w1) = users (db w) →
          ∃ resp w2, (Val (json code (Message msg)), w1) = (Val resp, w2)
            ∧ ((status resp = 201%nat
                ∧ ∃ u, users (db w2) = (users (db w) ++ [u])%list
                       ∧ body h !! "email" = Some (User.email u)
                       ∧ User.role u = "user")
               ∨ (status resp ∈ [400%nat; 500%nat]
                  ∧ users (db w2) = users (db w)))) as Hfail.
{ intros code msg w1 Hcode Hu. eexists _, _. split; [reflexivity|]. by right. }
unfold register in E. simpl in E.
destruct (body h !! "email") as [[|c email]|] eqn:He; simpl in E;
  try (injection E as <- <-; apply Hfail; [repeat constructor|done]).
destruct (body h !! "password") as [[|c' password]|] eqn:Hp; simpl in E;
  try (injection E as <- <-; apply Hfail; [repeat constructor|done]).
unfold try_catch, bind in E.
destruct (User_findOne _ w) as [[existing|e] w1] eqn:E1;
  apply db_call_outcome in E1 as [[[=] Hdb1]|[Hr1 Hdb1]]; simpl in *.
- injection Hr1 as ->. revert E.
  destruct (find _ _) as [u|] eqn:Hfind; intros E; simpl in E.
  + injection E as <- <-. apply Hfail; [repeat constructor|by rewrite Hdb1].
  + destruct (User_save _ _) as [[[]|e] w2] eqn:E2;
      apply db_call_outcome in E2 as [[Hr2 Hdb2]|[Hr2 Hdb2]];
      simpl in Hr2, Hdb2; rewrite ?Hdb1, ?Hfind in Hr2, Hdb2;
      try discriminate Hr2; injection E as <- <-.
    * eexists _, _. split; [reflexivity|]. left. split; [done|].
      eexists. rewrite Hdb2. simpl. by split.
    * apply Hfail; [repeat constructor|]. by rewrite Hdb2, Hdb1.
- injection E as <- <-. apply Hfail; [repeat constructor|]. by rewrite Hdb1.
- discriminate Hr1.
Qed.

(** X4. A registration without an email or without a password (absent
    or empty) is answered 400 "Email and password required" before the
    store is consulted: the world is exactly as before. *)
Theorem register_requires_both_fields h w :
route h = PostRegister →
JS.truthy (body h !! "email") = false ∨ JS.truthy (body h !! "password") = false →
app cfg h w = (Val (json 400 (Message "Email and password required")), w).
Proof.
intros Hroute Hmissing. unfold app. rewrite Hroute. unfold register. simpl.
by destruct Hmissing as [-> | ->]; rewrite ?orb_true_r.
Qed.

(** X5. The current-user route asks for a valid token only, whatever
    its role: while the store works the answer is 200 with the id, email
    and role of the account the token names (never the password hash),
    and 200 with an empty body when no account has that id. *)
Theorem current_user_outcome h w token decoded :
route h = GetUser →
carries h token →
jwt_verify token (JWT_SECRET cfg) (clock (env w) / 1000) = Some decoded →
healthy (env w) →
∃ body,
  app cfg h w = (Val (json 200 (UserBody body)), log (DbRead Users) w)
  ∧ match body with
    | Some (id, email, role) =>
        id = jwt_id decoded
        ∧ ∃ u, u ∈ users (db w) ∧ User._id u = id
               ∧ User.email u = email ∧ User.role u = role
    | None => ∀ u, u ∈ users (db w) → User._id u ≠ jwt_id decoded
    end.
Proof.
intros Hroute Hc Hv Hh. unfold app. rewrite Hroute.
rewrite (verifyToken_pass cfg (mkReq h None None None) _ _ token decoded) by done.
unfold get_user, bind, User_findById, ret. simpl.
rewrite db_call_healthy by done. simpl.
destruct (find _ _) as [u|] eqn:Hfind; simpl.
- eexists. split; [by destruct w as [[] ? ? ?]|]. simpl.
  apply find_some in Hfind as [Hin Hid]. apply Nat.eqb_eq in Hid.
  split; [done|]. exists u. by rewrite list_elem_of_In.
- eexists. split; [by destruct w as [[] ? ? ?]|]. simpl.
  intros u Hin Hid. apply list_elem_of_In in Hin.
  pose proof (find_none _ _ Hfind u Hin) as Hn. simpl in Hn.
  by rewrite Hid, Nat.eqb_refl in Hn.
Qed.

End AccountRoutes.

(** ** Further properties of the record routes *)

#[global] Instance newer_total : Total newer.
Proof. intros a b. unfold newer. lia. Qed.

#[global] Instance newer_transitive : Transitive newer.
Proof. intros a b c. unfold newer. lia. Qed.

#[global] Instance kept_preorder : PreOrder kept.
Proof.
split.
- by intros d.
- intros d1 d2 d3 (U1 & M1 & C1) (U2 & M2 & C2).
  split; [|split]; by etrans.
Qed.

Lemma find_update_first {A} (p : A → bool) f l x :
find p l = Some x → p (f x) = true → find p (update_first p f l) = Some (f x).
Proof.
induction l as [|y l IH]; simpl; [done|].
destruct (p y) eqn:Hy.
- intros [= ->] Hfx. simpl. by rewrite Hfx.
- intros Hx Hfx. simpl. rewrite Hy. by apply IH.
Qed.

Lemma update_first_none {A} (p : A → bool) f l :
find p l = None → update_first p f l = l.
Proof.
induction l as [|y l IH]; simpl; [done|].
destruct (p y); [done|]. intros H. by rewrite IH.
Qed.

Lemma update_first_others {A} (p : A → bool) f l x :
x ∈ l → p x = false → x ∈ update_first p f l.
Proof.
induction l as [|y l IH]; simpl; [done|].
intros [->|Hin]%elem_of_cons Hx.
- rewrite Hx. apply elem_of_cons. by left.
- destruct (p y); apply elem_of_cons; right; [done|by apply IH].
Qed.

Lemma attach_last fs f d :
fold_left attach (fs ++ [f]) d = attach (fold_left attach fs d) f.
Proof. by rewrite fold_left_app. Qed.

Lemma attach_keeps_image fs : ∀ d,
Forall (λ f, fieldname (part f) ≠ "image") fs →
News.d_imageUrl (fold_left attach fs d) = News.d_imageUrl d.
Proof.
induction fs as [|f fs IH]; intros d Hall; simpl; [done|].
apply Forall_cons in Hall as [Hf Hall]. rewrite IH by done.
unfold attach. destruct (String.eqb_spec (fieldname (part f)) "image"); [done|].
by destruct (String.eqb _ "video").
Qed.

Section Records.
Context {P : Platform} (cfg : Config).

(** After the gates and a successful upload step, a handler runs on the
    stored files, in a world that differs by those files only. *)
Lemma upload_passes h w id :
acceptable h →
∃ w1,
  db w1 = db w ∧ env w1 = env w
  ∧ disk w1 = paths (default [] (intaken (clock (env w)) h)) ∪ disk w
  ∧ ∀ cb : option string → Req → M Response,
      upload (mkReq h (Some id) (Some "admin") None) cb w
      = cb None (mkReq h (Some id) (Some "admin") (intaken (clock (env w)) h)) w1.
Proof.
intros Hok. unfold upload, intaken, acceptable in *. simpl.
destruct (parts h) as [ps|]; simpl.
- destruct (intake_accepts ps w Hok) as (w1 & Hi & Hdb & Henv & Hdisk).
  exists w1. do 3 (split; [done|]). intros cb. unfold bind. by rewrite Hi.
- exists w. do 2 (split; [done|]). split; [|done].
  unfold paths. simpl. set_solver.
Qed.

(** X6. The public news listing needs no token and, while the store
    works, answers 200 with exactly the stored items (a permutation of
    them), newest first: every item is at least as recent as all that
    follow it. *)
Theorem news_listing_newest_first h w :
route h = GetNews →
healthy (env w) →
∃ items,
  app cfg h w = (Val (json 200 (NewsBody items)), log (DbRead NewsItems) w)
  ∧ items ≡ₚ news (db w)
  ∧ StronglySorted newer items.
Proof.
intros Hroute Hh. exists (merge_sort newer (news (db w))).
split; [|split].
- unfold app. rewrite Hroute. unfold list_news, bind, News_find_sorted, ret.
  rewrite db_call_healthy by done. simpl. by destruct w as [[] ? ? ?].
- apply merge_sort_Permutation.
- apply StronglySorted_merge_sort; apply _.
Qed.

(** X7. The get-member route of an admin answers 200 with the stored
    member of that id, 404 "Member not found" when there is none, and
    500 "Server error" when the store fails; it never changes the
    store. *)
Theorem get_member_outcome h w :
route h = GetMemberById →
admin_request cfg h w →
∃ w',
  db w' = db w
  ∧ app cfg h w
    = (Val (match db_faults (env w) with
            | true :: _ => json 500 (Message "Server error")
            | _ =>
                match find (λ m, Nat.eqb (Member._id m) (params_id h)) (members (db w)) with
                | Some m => json 200 (MemberBody m)
                | None => json 404 (Message "Member not found")
                end
            end), w').
Proof.
intros Hroute Hadmin. unfold app. rewrite Hroute.
destruct (admin_request_passes cfg h w get_member Hadmin) as [id ->].
unfold get_member, try_catch, bind, Member_findById, db_call, ret. simpl.
destruct (db_faults (env w)) as [|[] fs]; simpl;
  try destruct (find _ _); (eexists; split; [|reflexivity]; done).
Qed.

(** X8. An update of a News item by an admin, with title and
    description present and the upload step passed, while the store
    works. For a stored id the answer is 200; looking the id up
    afterwards gives the item with the new title and description and
    its old creation time; its image reference is that of the last file
    sent as "image" if the last file is one, and the old reference when
    no file is sent as "image"; the other items are untouched; and
    nothing is removed from disk, so a replaced file stays. For an
    unknown id the answer is 404 and the items are as before, yet the
    uploaded files are on disk. *)
Theorem update_news_outcome h w title description :
route h = PutNews →
admin_request cfg h w →
healthy (env w) →
acceptable h →
body h !! "title" = Some title → title ≠ "" →
body h !! "description" = Some description → description ≠ "" →
let now := clock (env w) in
let fs := intaken now h in
∃ w',
  disk w' = paths (default [] fs) ∪ disk w
  ∧ match find (by_news_id (params_id h)) (news (db w)) with
    | Some n =>
        app cfg h w = (Val (json 200 (Message "News updated successfully")), w')
        ∧ (∃ n',
             find (by_news_id (params_id h)) (news (db w')) = Some n'
             ∧ News.title n' = title
             ∧ News.description n' = description
             ∧ News.createdAt n' = News.createdAt n
             ∧ (∀ ps p, parts h = Some (ps ++ [p])%list → fieldname p = "image" →
                  News.imageUrl n' = Some ("/uploads/" ++ storage_filename now p))
             ∧ (Forall (λ p, fieldname p ≠ "image") (default [] (parts h)) →
                News.imageUrl n' = News.imageUrl n))
        ∧ (∀ m, m ∈ news (db w) → News._id m ≠ params_id h → m ∈ news (db w'))
    | None =>
        app cfg h w = (Val (json 404 (Message "News not found")), w')
        ∧ news (db w') = news (db w)
    end.
Proof.
intros Hroute Hadmin Hh Hok Ht Htne Hd Hdne now fs.
unfold app. rewrite Hroute.
destruct (admin_request_passes cfg h w update_news Hadmin) as [id ->].
unfold update_news, news_upload.
destruct (upload_passes h w id Hok) as (w1 & Hdb & Henv & Hdisk & ->).
simpl. rewrite Ht, Hd, !truthy_Some by done. simpl.
unfold bind, News_findByIdAndUpdate.
rewrite db_call_healthy by (by rewrite Henv). simpl. rewrite Hdb.
fold now. fold fs.
set (data := newsData title description fs).
match goal with
| |- context [set_db ?d (log (DbWrite NewsItems) w1)] =>
    exists (set_db d (log (DbWrite NewsItems) w1))
end.
split; [exact Hdisk|].
destruct (find (by_news_id (params_id h)) (news (db w))) as [n|] eqn:Hfind; simpl.
- split; [reflexivity|]. simpl. split.
  + exists (News_apply data n).
    assert (by_news_id (params_id h) n = true) as Hn
      by by apply find_some in Hfind as [_ ?].
    split; [by apply find_update_first|].
    subst data. unfold newsData, fs, intaken.
    destruct (parts h) as [ps|] eqn:Hparts; simpl.
    * destruct (attach_keeps_text (stored_as now <$> ps)
                  (News.mkData title description None None)) as [-> ->].
      do 3 (split; [done|]). split.
      -- intros ps' p [= ->] Hp. rewrite fmap_app. simpl.
         rewrite attach_last. unfold attach at 1. simpl. by rewrite Hp.
      -- intros Hnone. rewrite attach_keeps_image; [done|].
         apply Forall_fmap. by eapply Forall_impl.
    * do 3 (split; [done|]). split; [done|]. done.
  + intros m Hm Hid. apply update_first_others; [done|].
    by apply Nat.eqb_neq.
- split; [reflexivity|]. simpl. by apply update_first_none.
Qed.

(** X9. Creating or updating news without a title or without a
    description (absent or empty) is answered 400 "Title and description
    required" with the store untouched; the files the request uploaded
    before that check stay on disk. *)
Theorem news_fields_required h w :
route h = PostNews ∨ route h = PutNews →
admin_request cfg h w →
acceptable h →
JS.truthy (body h !! "title") = false ∨ JS.truthy (body h !! "description") = false →
∃ w',
  app cfg h w = (Val (json 400 (Message "Title and description required")), w')
  ∧ db w' = db w
  ∧ disk w' = paths (default [] (intaken (clock (env w)) h)) ∪ disk w.
Proof.
intros Hroute Hadmin Hok Hmissing. unfold app.
assert (negb (JS.truthy (body h !! "title"))
        || negb (JS.truthy (body h !! "description")) = true) as Hcond.
{ destruct Hmissing as [-> | ->]; by rewrite ?orb_true_r. }
destruct Hroute as [-> | ->].
- destruct (admin_request_passes cfg h w create_news Hadmin) as [id ->].
  unfold create_news, news_upload.
  destruct (upload_passes h w id Hok) as (w1 & Hdb & Henv & Hdisk & ->).
  simpl. rewrite Hcond. by exists w1.
- destruct (admin_request_passes cfg h w update_news Hadmin) as [id ->].
  unfold update_news, news_upload.
  destruct (upload_passes h w id Hok) as (w1 & Hdb & Henv & Hdisk & ->).
  simpl. rewrite Hcond. by exists w1.
Qed.

(** X10. When an admin's create-member request passes the upload step
    and then fails, no Member is stored and the files it uploaded stay
    on disk with no record referring to them: with a tested field absent
    or empty the answer is 400, and with a filled form the schema
    refuses the answer is 500 "Error saving member". *)
Theorem failed_member_creation_keeps_uploads h w :
route h = PostMembers →
admin_request cfg h w →
healthy (env w) →
acceptable h →
let b := body h in
let fs := intaken (clock (env w)) h in
(∃ k, k ∈ checked_fields ∧ JS.truthy (b !! k) = false)
∨ (filled b ∧ Member.validate (next_id (db w)) (memberData b fs) = None) →
∃ resp w',
  app cfg h w = (Val resp, w')
  ∧ resp = (if decide (filled b)
            then json 500 (Message "Error saving member")
            else json 400 (Message "All required fields must be filled"))
  ∧ members (db w') = members (db w)
  ∧ disk w' = paths (default [] fs) ∪ disk w.
Proof.
intros Hroute Hadmin Hh Hok b fs Hfail. unfold app. rewrite Hroute.
destruct (admin_request_passes cfg h w create_member Hadmin) as [id ->].
unfold create_member.
destruct (upload_passes h w id Hok) as (w1 & Hdb & Henv & Hdisk & ->).
cbv beta iota delta [http files]. fold b. fold fs.
destruct Hfail as [(k & Hk & Hempty)|[Hfilled Hinvalid]].
- rewrite (unfilled_existsb b k) by done.
  assert (¬ filled b) as Hnot.
  { intros Hfilled. unfold filled in Hfilled. rewrite Forall_forall in Hfilled.
    by rewrite (Hfilled k Hk) in Hempty. }
  eexists _, w1. split; [reflexivity|]. rewrite decide_False by done.
  by rewrite Hdb.
- rewrite filled_existsb by done.
  unfold bind at 1, new_id. unfold try_catch, bind, Member_save.
  rewrite db_call_healthy by (simpl; by rewrite Henv). simpl.
  rewrite Hdb, Hinvalid. simpl.
  eexists _, _. split; [reflexivity|]. rewrite decide_True by done.
  simpl. done.
Qed.

(** X11. On each route that takes files (create member, create news,
    update news), an admin's request with a part of more than 10 MiB is
    answered 400 and the store is untouched. The upload fails at the
    first part that the filter refuses or that is larger than 10 MiB:
    every file on disk afterwards was there before the request or is the
    stored form of a part behind that one; and when the parser delivers
    no part after the failure, every file on disk afterwards was there
    before the request. *)
Theorem oversized_file_rejected h w ps p :
route h ∈ upload_routes →
admin_request cfg h w →
parts h = Some ps →
p ∈ ps →
fileSize < bytes p →
∃ message w' before culprit after,
  app cfg h w = (Val (json 400 (Message message)), w')
  ∧ db w' = db w
  ∧ fails_at ps before culprit after
  ∧ disk w' ⊆ disk w ∪ paths (stored_as (clock (env w)) <$> after)
  ∧ (late_parts (env w) = [] → disk w' ⊆ disk w).
Proof.
intros Hroute Hadmin Hparts Hin Hbig.
destruct (intake_failure ps w)
  as (msg & w' & before & culprit & after & Hintake & Hdb & _ & Hat & Hhi & Hnone).
{ apply Exists_exists. exists p. split; [done|by right]. }
unfold app.
repeat (apply elem_of_cons in Hroute as [->|Hroute]);
  [| | |by apply elem_of_nil in Hroute].
- destruct (admin_request_passes cfg h w create_member Hadmin) as [id ->].
  unfold create_member, upload. simpl. rewrite Hparts. unfold bind.
  rewrite Hintake. by exists msg, w', before, culprit, after.
- destruct (admin_request_passes cfg h w create_news Hadmin) as [id ->].
  unfold create_news, news_upload, upload. simpl. rewrite Hparts. unfold bind.
  rewrite Hintake. by exists msg, w', before, culprit, after.
- destruct (admin_request_passes cfg h w update_news Hadmin) as [id ->].
  unfold update_news, news_upload, upload. simpl. rewrite Hparts. unfold bind.
  rewrite Hintake. by exists msg, w', before, culprit, after.
Qed.

(** X12. A contact submission lacking a name, an email or a message
    (absent or empty) is answered 400 "All fields required" and nothing
    else happens: no Contact is stored and no mail is sent. *)
Theorem contact_requires_all_fields h w :
route h = PostContact →
JS.truthy (body h !! "name") = false
∨ JS.truthy (body h !! "email") = false
∨ JS.truthy (body h !! "message") = false →
app cfg h w = (Val (json 400 (Message "All fields required")), w).
Proof.
intros Hroute Hmissing. unfold app. rewrite Hroute. unfold submit_contact. simpl.
by destruct Hmissing as [-> | [-> | ->]]; rewrite ?orb_true_r.
Qed.

(** X13. The save of a Contact is outside the handler's try/catch: when
    the store fails, the exception leaves the handler, no response is
    produced, nothing is stored and the mail relay is not contacted. *)
Theorem contact_store_failure_escapes h w name email message fs :
route h = PostContact →
body h !! "name" = Some name → name ≠ "" →
body h !! "email" = Some email → email ≠ "" →
body h !! "message" = Some message → message ≠ "" →
db_faults (env w) = true :: fs →
∃ w',
  app cfg h w = (Exn StoreError, w')
  ∧ contacts (db w') = contacts (db w)
  ∧ trace w' = (trace w ++ [DbWrite Contacts])%list.
Proof.
intros Hroute Hn Hnne He Hene Hm Hmne Hf. unfold app. rewrite Hroute.
unfold submit_contact. simpl. rewrite Hn, He, Hm, !truthy_Some by done. simpl.
unfold bind at 1, new_id. unfold bind at 1, Date_now, gets.
unfold bind at 1, Contact_save, db_call. simpl. rewrite Hf.
by eexists.
Qed.

(** X14. Deleting news when the store fails is answered 500 "Error
    deleting news". If the failure comes at the first store operation
    nothing has changed. If the lookup succeeds and the deletion fails,
    the files were already unlinked: the item is still stored, but the
    file behind its image reference is gone. *)
Theorem delete_news_store_failure h w :
route h = DeleteNews →
admin_request cfg h w →
(∀ fs, db_faults (env w) = true :: fs →
   ∃ w', app cfg h w = (Val (json 500 (Message "Error deleting news")), w')
         ∧ db w' = db w ∧ disk w' = disk w)
∧ (∀ fs n, db_faults (env w) = false :: true :: fs →
     find (by_news_id (params_id h)) (news (db w)) = Some n →
     ∃ w', app cfg h w = (Val (json 500 (Message "Error deleting news")), w')
           ∧ news (db w') = news (db w)
           ∧ ∀ url, News.imageUrl n = Some url → url ≠ "" →
                    ("public" ++ url) ∉ disk w').
Proof.
intros Hroute Hadmin. unfold app. rewrite Hroute.
destruct (admin_request_passes cfg h w delete_news Hadmin) as [uid ->].
unfold delete_news, try_catch. simpl. split.
- intros fs Hf. unfold bind at 1, News_findById, db_call. simpl. rewrite Hf.
  by eexists.
- intros fs n Hf Hfind. unfold bind at 1, News_findById, db_call. simpl.
  rewrite Hf, Hfind. simpl.
  set (w0 := set_db _ _).
  unfold bind at 1.
  destruct (unlink_media_spec (News.imageUrl n) w0) as (w1 & -> & Hdb1 & Henv1 & Hdisk1).
  unfold bind at 1.
  destruct (unlink_media_spec (News.videoUrl n) w1) as (w2 & -> & Hdb2 & Henv2 & Hdisk2).
  unfold bind at 1, News_findByIdAndDelete, db_call. simpl.
  rewrite Henv2, Henv1. simpl.
  eexists. split; [reflexivity|]. simpl. rewrite Hdb2, Hdb1. split; [done|].
  intros url Hu Hne. rewrite Hdisk2, Hdisk1, Hu, truthy_Some by done. simpl.
  destruct (JS.truthy (News.videoUrl n)); set_solver.
Qed.

(** X15. No request ever removes or alters an account, a member or a
    contact: after any history of requests, whatever their outcome, the
    accounts, members and contacts stored at the start are still there,
    in order, at the head of the collections. *)
Theorem records_are_append_only history w :
kept (db w) (db (run cfg history w).2).
Proof.
assert (∀ h, steps kept (app cfg h)) as Hstep.
{ intros h. unfold_handlers.
  destruct (route h);
    repeat steps_step
      ltac:(unfold kept; simpl; split_and!;
            first [done | by apply prefix_app_r]). }
revert w. induction history as [|[e h] rest IH]; intros w; simpl.
- reflexivity.
- unfold serve. destruct (app cfg h (set_env e w)) as [r w1] eqn:E.
  specialize (IH w1). destruct (run cfg rest w1) as [rs w2]. simpl in *.
  etrans; [|exact IH]. apply (Hstep h _ _ _ E).
Qed.

End Records.

(** ** Further properties of the token check *)

Lemma split_no_space s : no_space s = true → JS.split " " s = [s].
Proof.
induction s as [|c s IH]; simpl; [done|].
intros [Hc Hs]%andb_prop. apply negb_true_iff in Hc. rewrite Hc.
by rewrite IH.
Qed.

Lemma split_word a b :
no_space a = true → JS.split " " (a ++ String " " b) = a :: JS.split " " b.
Proof.
induction a as [|c a IH]; simpl; [done|].
intros [Hc Ha]%andb_prop. apply negb_true_iff in Hc. rewrite Hc.
by rewrite IH.
Qed.

Lemma find_some_member {A} (p : A → bool) l x :
x ∈ l → p x = true → ∃ y, find p l = Some y ∧ p y = true.
Proof.
intros Hin Hp. destruct (find p l) as [y|] eqn:Hfind.
- exists y. split; [done|]. by apply find_some in Hfind as [_ ?].
- apply list_elem_of_In in Hin.
  by rewrite (find_none _ _ Hfind x Hin) in Hp.
Qed.

Lemma split_head t rest :
no_space t = true →
rest = "" ∨ (∃ more, rest = String " " more) →
∃ l, JS.split " " (t ++ rest) = t :: l.
Proof.
intros Ht Hrest. induction t as [|c t IH]; simpl.
- destruct Hrest as [->|[more ->]]; simpl; by eexists.
- simpl in Ht. apply andb_prop in Ht as [Hc Ht]. apply negb_true_iff in Hc.
  rewrite Hc. destruct (IH Ht) as [l ->]. by eexists.
Qed.

Section TokenCheck.
Context {P : Platform} (cfg : Config).

(** X16. The token is the second word of the Authorization header and
    the first word is never looked at: after any scheme word ("Bearer",
    "Basic", ...) and one space, the server reads the token, ignoring
    whatever follows a further space. A header of one word only, such as
    the bare token, counts as no token at all. *)
Theorem bearer_scheme_not_checked h scheme token rest :
no_space scheme = true →
no_space token = true →
token ≠ "" →
rest = "" ∨ (∃ more, rest = String " " more) →
(authorization h = Some (scheme ++ " " ++ token ++ rest) → carries h token)
∧ (authorization h = Some token →
   JS.truthy (bearer (authorization h)) = false).
Proof.
intros Hs Ht Hne Hrest. split.
- intros Ha. split; [|done]. rewrite Ha. unfold bearer. simpl.
  change (scheme ++ " " ++ token ++ rest)
    with (scheme ++ String " " (token ++ rest)).
  rewrite split_word by done.
  by destruct (split_head token rest Ht Hrest) as [l ->].
- intros Ha. rewrite Ha. unfold bearer. simpl. by rewrite split_no_space.
Qed.

(** X17. When the environment sets no JWT_SECRET (or an empty one) the
    server verifies tokens with the key written in its source. A request
    that carries a token anyone signed for the role "admin" with
    "your_jwt_secret_key", served before the token expires, is an
    admin's request: [verifyToken] followed by [isAdmin] hands it to
    whatever handler comes next, with the id of the token and the role
    "admin"; on each of the six admin routes the answer of the server is
    that of the route's handler on that request; on the member list
    route, without a search and while the store works, the answer is 200
    with every stored member. *)
Theorem default_secret_admits_forged_admin {L : PlatformLaws P} h w id ttl t :
JS.truthy (env_JWT_SECRET cfg) = false →
carries h (jwt_sign id "admin" "your_jwt_secret_key" ttl t) →
clock (env w) / 1000 < t + ttl →
admin_request cfg h w
∧ (∀ handler,
     verifyToken cfg (mkReq h None None None) (λ req, isAdmin req handler) w
     = handler (mkReq h (Some id) (Some "admin") None) w)
∧ (∀ handler,
     admin_handler (route h) = Some handler →
     app cfg h w = handler (mkReq h (Some id) (Some "admin") None) w)
∧ (route h = GetMembers → query_search h = None → healthy (env w) →
   app cfg h w
   = (Val (json 200 (MembersBody (members (db w)))), log (DbRead Members) w)).
Proof.
intros Hunset Hc Hlive.
assert (jwt_verify (jwt_sign id "admin" "your_jwt_secret_key" ttl t)
          (JWT_SECRET cfg) (clock (env w) / 1000)
        = Some (mkJwt id "admin" t (t + ttl))) as Hv.
{ unfold JWT_SECRET. rewrite Hunset. by apply jwt_verify_live. }
assert (admin_request cfg h w) as Hadmin.
{ by exists (jwt_sign id "admin" "your_jwt_secret_key" ttl t),
            (mkJwt id "admin" t (t + ttl)). }
assert (∀ handler,
          verifyToken cfg (mkReq h None None None) (λ req, isAdmin req handler) w
          = handler (mkReq h (Some id) (Some "admin") None) w) as Hgates.
{ intros handler.
  rewrite (verifyToken_pass cfg (mkReq h None None None) _ _ _ _ Hc Hv).
  by rewrite isAdmin_pass. }
split_and!; [done..| |].
- intros handler Hhandler. rewrite <- Hgates. unfold app.
  destruct (route h); simpl in Hhandler; by simplify_eq.
- intros Hroute Hq Hh. rewrite (list_members_answer cfg h w) by done.
  by rewrite Hq.
Qed.

(** X18. A token issued by a login opens the current-user route for the
    hour that follows, whatever requests are served in between: while
    the store works the answer is 200 with an account whose id is that
    of the account logged into. *)
Theorem login_token_opens_profile {L : PlatformLaws P} l w0 w1 token history e h :
route l = PostLogin →
app cfg l w0 = (Val (json 200 (TokenBody token)), w1) →
healthy e →
clock e / 1000 < clock (env w0) / 1000 + 3600 →
route h = GetUser →
carries h token →
∃ u email role w',
  find (by_email (body l !! "email")) (users (db w0)) = Some u
  ∧ serve cfg e h (run cfg history w1).2
    = (Val (json 200 (UserBody (Some (User._id u, email, role)))), w').
Proof.
intros Hl Hlogin He Hlive Hh Hc.
unfold app in Hlogin. rewrite Hl in Hlogin.
apply login_issues in Hlogin as (u & Hu & -> & Hdb).
simpl in Hu.
set (w2 := (run cfg history w1).2).
assert (u ∈ users (db w2)) as Hin.
{ destruct (run_grows cfg history w1) as (ext & Hext & _). fold w2 in Hext.
  rewrite Hext, Hdb. apply elem_of_app. left.
  apply list_elem_of_In. by apply find_some in Hu as [? _]. }
destruct (find_some_member (λ v, Nat.eqb (User._id v) (User._id u))
            (users (db w2)) u Hin (Nat.eqb_refl _)) as (v & Hv & Hid).
apply Nat.eqb_eq in Hid.
exists u, (User.email v), (User.role v). eexists. split; [done|].
unfold serve, app. rewrite Hh.
rewrite (verifyToken_pass cfg (mkReq h None None None) _ _ _
           (mkJwt (User._id u) (User.role u) (clock (env w0) / 1000)
              (clock (env w0) / 1000 + expiresIn)) Hc)
  by by apply jwt_verify_live.
unfold get_user, bind, User_findById, ret.
rewrite db_call_healthy by done. simpl. rewrite Hv. simpl. by rewrite Hid.
Qed.

End TokenCheck.

(** ** Further properties of the member routes *)

#[global] Instance schema_kept_preorder : PreOrder schema_kept.
Proof.
split.
- intros d H. exact H.
- intros d1 d2 d3 H12 H23 H. by apply H23, H12.
Qed.

Lemma required_Some v s : Member.required v = Some s → s ≠ "".
Proof.
unfold Member.required. destruct v as [[|c r]|]; simpl; [done| |done].
by intros [= <-].
Qed.

Lemma required_enum_Some e v s : Member.required_enum e v = Some s → s ∈ e.
Proof.
unfold Member.required_enum. destruct (Member.required v) as [t|]; [|done].
destruct (decide (t ∈ e)) as [Hin|Hout].
- rewrite bool_decide_eq_true_2 by done. by intros [= <-].
- by rewrite bool_decide_eq_false_2.
Qed.

(** Whatever passes validation satisfies the schema. *)
Lemma validate_schema_valid id d m :
Member.validate id d = Some m → schema_valid m ∧ Member._id m = id.
Proof.
unfold Member.validate. intros H.
repeat match type of H with
       | mbind _ ?x = Some _ => destruct x eqn:?; simpl in H; [|discriminate H]
       end.
injection H as <-. unfold schema_valid. simpl.
split; [|done].
split; [repeat constructor; by eapply required_Some|].
split_and!; by eapply required_enum_Some.
Qed.

(** A store operation leaves the disk alone. *)
Lemma db_call_disk {A} ev (op : Db → Result A * Db) w r w' :
db_call ev op w = (r, w') → disk w' = disk w.
Proof.
unfold db_call. simpl.
destruct (db_faults (env w)) as [|[] fs]; simpl;
  try destruct (op (db w)); by intros [= <- <-].
Qed.

Section MemberRoutes.
Context {P : Platform} (cfg : Config).

(** X19. Apart from the phone comparison, the listing is the specified
    search: for an admin, while the store works, when no stored phone
    number holds an upper-case letter the answer is 200 with exactly the
    members whose name, location, phone or contact contains the query
    case-insensitively, in stored order; without a query, or with an
    empty one, all members are returned. The listing changes nothing in
    the store. *)
Theorem list_members_matches_spec h w :
route h = GetMembers →
admin_request cfg h w →
healthy (env w) →
Forall (λ m, JS.toLowerCase (Member.phone m) = Member.phone m) (members (db w)) →
app cfg h w
= (Val (json 200 (MembersBody
          (match query_search h with
           | None | Some "" => members (db w)
           | Some query => List.filter (matches_spec query) (members (db w))
           end))),
   log (DbRead Members) w).
Proof.
intros Hroute Hadmin Hh Hphones.
rewrite list_members_answer by done.
assert (∀ query l,
          Forall (λ m, JS.toLowerCase (Member.phone m) = Member.phone m) l →
          List.filter (member_matches (JS.toLowerCase query)) l
          = List.filter (matches_spec query) l) as Hfilter.
{ intros query l Hl. induction l as [|m l IH]; simpl; [done|].
  apply Forall_cons in Hl as [Hm Hl].
  rewrite (member_matches_spec _ m Hm). by rewrite IH. }
destruct (query_search h) as [[|c q]|]; simpl; [done| |done].
change (String (JS.lower_ascii c) (JS.toLowerCase q))
  with (JS.toLowerCase (String c q)).
by rewrite Hfilter.
Qed.

(** X20. Every Member the create route stores satisfies the schema: if
    the stored members have their required strings non-empty and their
    gender, enrolment status, irrigation method and membership status
    within the enumerations, this is still so after any history of
    requests. *)
Theorem stored_members_satisfy_schema history w :
Forall schema_valid (members (db w)) →
Forall schema_valid (members (db (run cfg history w).2)).
Proof.
assert (∀ h, steps schema_kept (app cfg h)) as Hstep.
{ intros h. unfold_handlers.
  destruct (route h);
    repeat steps_step
      ltac:(unfold schema_kept; simpl; intros ?;
            first [ done
                  | apply Forall_app; split; [done|];
                    apply Forall_singleton;
                    eapply validate_schema_valid; eassumption ]). }
revert w. induction history as [|[e h] rest IH]; intros w Hw; simpl.
- done.
- unfold serve. destruct (app cfg h (set_env e w)) as [r w1] eqn:E.
  specialize (IH w1). destruct (run cfg rest w1) as [rs w2]. simpl in *.
  apply IH. by apply (Hstep h _ _ _ E).
Qed.

(** X21. When the create-member route answers 201, the member in the
    answer is the one appended to the store, it satisfies the schema,
    and each of its photo references is the public URL of a file the
    request put on disk: "public" followed by the reference is a path on
    disk. *)
Theorem created_member_photos_on_disk h w m w' :
route h = PostMembers →
admin_request cfg h w →
acceptable h →
app cfg h w = (Val (json 201 (MemberBody m)), w') →
members (db w') = (members (db w) ++ [m])%list
∧ schema_valid m
∧ ∀ url, url ∈ Member.passportPhotos m → ("public" ++ url) ∈ disk w'.
Proof.
intros Hroute Hadmin Hok.
destruct (create_member_after_upload cfg h w Hadmin Hok)
  as (w1 & Hdb & Henv & Hdisk & Happ).
assert (mkHttp PostMembers (authorization h) (body h) (query_search h)
          (params_id h) (parts h) = h) as Hh'.
{ destruct h. simpl in *. by subst. }
rewrite Hh' in Happ. clear Hh'. rewrite Happ.
destruct (existsb _ _); [by intros [= ?]|].
unfold bind at 1, new_id. unfold try_catch, bind at 1.
destruct (Member_save _ _ _) as [[m'|e] w2] eqn:Esave; simpl;
  [|by intros [= ?]].
intros [= Hm <-]. subst m'.
unfold Member_save in Esave.
pose proof (db_call_disk _ _ _ _ _ Esave) as Hdisk2. simpl in Hdisk2.
apply db_call_outcome in Esave as [[[=] _]|[Hr Hdb2]]. simpl in Hr, Hdb2.
rewrite Hdb in Hr, Hdb2.
destruct (Member.validate _ _) as [m'|] eqn:Hvalid; [|discriminate Hr].
injection Hr as <-. simpl in Hdb2.
split; [by rewrite Hdb2|].
destruct (validate_schema_valid _ _ _ Hvalid) as [Hschema _].
split; [done|].
intros url Hurl. rewrite Hdisk2, Hdisk.
assert (Member.passportPhotos m
        = uploads_url <$> default [] (intaken (clock (env w)) h)) as Hphotos.
{ revert Hvalid. unfold Member.validate. intros H.
  repeat match type of H with
         | mbind _ ?x = Some _ => destruct x eqn:?; simpl in H; [|discriminate H]
         end.
  injection H as <-. simpl.
  by destruct (intaken (clock (env w)) h) as [[|f fs]|]. }
rewrite Hphotos in Hurl. apply list_elem_of_fmap in Hurl as (f & -> & Hf).
apply elem_of_union. left. unfold paths.
apply elem_of_list_to_set. apply list_elem_of_fmap. by exists f.
Qed.

End MemberRoutes.

(** ** The further properties on the reference platform *)

Lemma login_rejects_bad_credentials_witness :
app (P:=Reference.platform) Reference.cfg
  (Reference.request PostLogin None Reference.alice) Reference.world0
= (Val (json 401 (Message "Invalid email or password")),
   log (DbRead Users) Reference.world0).
Proof.
apply (login_rejects_bad_credentials (P:=Reference.platform) Reference.cfg).
- reflexivity.
- reflexivity.
- left. reflexivity.
Defined.

Lemma login_exceptions_escape_witness :
∃ w',
  app (P:=Reference.platform) Reference.cfg
    (Reference.request PostLogin None Reference.alice)
    (set_env (Reference.troubled 0 [true]) Reference.registered)
  = (Exn StoreError, w').
Proof.
destruct (login_exceptions_escape (P:=Reference.platform) Reference.cfg
            (Reference.request PostLogin None Reference.alice)
            (set_env (Reference.troubled 0 [true]) Reference.registered))
  as [Hfault _].
- reflexivity.
- destruct (Hfault [] eq_refl) as (w' & Happ & _). by exists w'.
Defined.

Lemma register_always_answers_witness :
∃ resp w',
  app (P:=Reference.platform) Reference.cfg
    (Reference.request PostRegister None Reference.alice)
    (set_env (Reference.troubled 0 [false; true]) Reference.world0)
  = (Val resp, w').
Proof.
destruct (register_always_answers (P:=Reference.platform) Reference.cfg
            (Reference.request PostRegister None Reference.alice)
            (set_env (Reference.troubled 0 [false; true]) Reference.world0))
  as (resp & w' & Happ & _).
- reflexivity.
- by exists resp, w'.
Defined.

Lemma register_requires_both_fields_witness :
app (P:=Reference.platform) Reference.cfg
  (Reference.request PostRegister None [("email", "alice@farm.ng"); ("password", "")])
  Reference.world0
= (Val (json 400 (Message "Email and password required")), Reference.world0).
Proof.
apply (register_requires_both_fields (P:=Reference.platform) Reference.cfg).
- reflexivity.
- right. reflexivity.
Defined.

Lemma current_user_outcome_witness :
∃ body,
  app (P:=Reference.platform) Reference.cfg
    (Reference.request GetUser (Some ("Basic " ++ Reference.alice_token)) [])
    (set_env (Reference.calm 7000) Reference.registered)
  = (Val (json 200 (UserBody body)),
     log (DbRead Users) (set_env (Reference.calm 7000) Reference.registered)).
Proof.
destruct (current_user_outcome (P:=Reference.platform) Reference.cfg
            (Reference.request GetUser (Some ("Basic " ++ Reference.alice_token)) [])
            (set_env (Reference.calm 7000) Reference.registered)
            Reference.alice_token (mkJwt 0 "user" 6 3606))
  as (body & Happ & _).
- reflexivity.
- split; [vm_compute; reflexivity|discriminate].
- vm_compute. reflexivity.
- reflexivity.
- by exists body.
Defined.

Lemma news_listing_newest_first_witness :
∃ items,
  app (P:=Reference.platform) Reference.cfg
    (Reference.request GetNews None []) Reference.with_harvest
  = (Val (json 200 (NewsBody items)), log (DbRead NewsItems) Reference.with_harvest)
  ∧ items ≡ₚ [Reference.harvest].
Proof.
destruct (news_listing_newest_first (P:=Reference.platform) Reference.cfg
            (Reference.request GetNews None []) Reference.with_harvest)
  as (items & Happ & Hperm & _).
- reflexivity.
- reflexivity.
- by exists items.
Defined.

Lemma get_member_outcome_witness :
∃ w',
  app (P:=Reference.platform) Reference.cfg
    (Reference.as_admin GetMemberById [] None)
    (Reference.with_members [Reference.amina])
  = (Val (json 200 (MemberBody Reference.amina)), w').
Proof.
destruct (get_member_outcome (P:=Reference.platform) Reference.cfg
            (Reference.as_admin GetMemberById [] None)
            (Reference.with_members [Reference.amina]))
  as (w' & _ & Happ).
- reflexivity.
- apply session_admin_request; [reflexivity|by vm_compute].
- by exists w'.
Defined.

Lemma update_news_outcome_witness :
∃ w' n',
  app (P:=Reference.platform) Reference.cfg
    (Reference.as_admin PutNews Reference.headline None) Reference.with_harvest
  = (Val (json 200 (Message "News updated successfully")), w')
  ∧ find (by_news_id 0) (news (db w')) = Some n'
  ∧ News.title n' = "Rains"
  ∧ News.imageUrl n' = Some "/uploads/5000-maize.png"
  ∧ "public/uploads/5000-maize.png" ∈ disk w'.
Proof.
pose proof (update_news_outcome (P:=Reference.platform) Reference.cfg
              (Reference.as_admin PutNews Reference.headline None)
              Reference.with_harvest "Rains" "The rains have come") as H.
simpl in H.
destruct H as (w' & Hdisk & Happ & (n' & Hfind & Htitle & _ & _ & _ & Himage) & _).
- reflexivity.
- apply session_admin_request; [reflexivity|by vm_compute].
- reflexivity.
- exact I.
- reflexivity.
- discriminate.
- reflexivity.
- discriminate.
- exists w', n'. split; [exact Happ|]. split; [exact Hfind|].
  split; [exact Htitle|]. split; [apply Himage; constructor|].
  rewrite Hdisk. set_solver.
Defined.

Lemma news_fields_required_witness :
∃ w',
  app (P:=Reference.platform) Reference.cfg
    (Reference.as_admin PostNews [("title", "Rains")]
       (Some [Reference.png "image" "rain.png" 100]))
    Reference.world0
  = (Val (json 400 (Message "Title and description required")), w')
  ∧ news (db w') = []
  ∧ "public/uploads/0-rain.png" ∈ disk w'.
Proof.
destruct (news_fields_required (P:=Reference.platform) Reference.cfg
            (Reference.as_admin PostNews [("title", "Rains")]
               (Some [Reference.png "image" "rain.png" 100]))
            Reference.world0) as (w' & Happ & Hdb & Hdisk).
- by left.
- apply session_admin_request; [reflexivity|by vm_compute].
- repeat constructor. by vm_compute.
- right. reflexivity.
- exists w'. split; [exact Happ|]. split; [by rewrite Hdb|].
  rewrite Hdisk. unfold paths. simpl. set_solver.
Defined.

Lemma failed_member_creation_keeps_uploads_witness :
∃ w',
  app (P:=Reference.platform) Reference.cfg
    (mkHttp PostMembers (Reference.session "admin")
       (<["farmingExperience" := "many"]> (Reference.form Reference.member_form))
       None 0 (Some [Reference.png "passportPhotos" "me.png" 2048]))
    Reference.world0
  = (Val (json 500 (Message "Error saving member")), w')
  ∧ members (db w') = []
  ∧ "public/uploads/0-me.png" ∈ disk w'.
Proof.
destruct (failed_member_creation_keeps_uploads (P:=Reference.platform) Reference.cfg
            (mkHttp PostMembers (Reference.session "admin")
               (<["farmingExperience" := "many"]> (Reference.form Reference.member_form))
               None 0 (Some [Reference.png "passportPhotos" "me.png" 2048]))
            Reference.world0) as (resp & w' & Happ & Hresp & Hmembers & Hdisk).
- reflexivity.
- apply session_admin_request; [reflexivity|by vm_compute].
- reflexivity.
- repeat constructor. by vm_compute.
- right. split; [|vm_compute; reflexivity].
  unfold filled. apply Forall_forall. intros k Hk.
  repeat (apply elem_of_cons in Hk as [->|Hk]; [reflexivity|]).
  by apply elem_of_nil in Hk.
- exists w'. rewrite Happ, Hresp. rewrite decide_True.
  + split; [reflexivity|]. split; [exact Hmembers|].
    rewrite Hdisk. unfold paths. simpl. set_solver.
  + unfold filled. apply Forall_forall. intros k Hk.
    repeat (apply elem_of_cons in Hk as [->|Hk]; [reflexivity|]).
    by apply elem_of_nil in Hk.
Defined.

Lemma oversized_file_rejected_witness :
∃ message w',
  app (P:=Reference.platform) Reference.cfg
    (Reference.as_admin PostNews Reference.headline
       (Some [Reference.png "image" "small.png" 100;
              mkPart "video" "film.mp4" "video/mp4" (fileSize + 1)]))
    Reference.world0
  = (Val (json 400 (Message message)), w')
  ∧ db w' = db Reference.world0
  ∧ disk w' ⊆ ∅.
Proof.
destruct (oversized_file_rejected (P:=Reference.platform) Reference.cfg
            (Reference.as_admin PostNews Reference.headline
               (Some [Reference.png "image" "small.png" 100;
                      mkPart "video" "film.mp4" "video/mp4" (fileSize + 1)]))
            Reference.world0
            [Reference.png "image" "small.png" 100;
             mkPart "video" "film.mp4" "video/mp4" (fileSize + 1)]
            (mkPart "video" "film.mp4" "video/mp4" (fileSize + 1)))
  as (message & w' & before & culprit & after & Happ & Hdb & _ & _ & Hdisk).
- repeat constructor.
- apply session_admin_request; [reflexivity|by vm_compute].
- reflexivity.
- repeat constructor.
- by vm_compute.
- exists message, w'. split; [exact Happ|]. split; [exact Hdb|].
  by apply Hdisk.
Defined.

Lemma contact_requires_all_fields_witness :
app (P:=Reference.platform) Reference.cfg
  (Reference.request PostContact None [("name", "A"); ("email", "a@b.com")])
  Reference.world0
= (Val (json 400 (Message "All fields required")), Reference.world0).
Proof.
apply (contact_requires_all_fields (P:=Reference.platform) Reference.cfg).
- reflexivity.
- right. right. reflexivity.
Defined.

Lemma contact_store_failure_escapes_witness :
∃ w',
  app (P:=Reference.platform) Reference.cfg
    (Reference.request PostContact None
       [("name", "A"); ("email", "a@b.com"); ("message", "hi")])
    (set_env (Reference.troubled 0 [true]) Reference.world0)
  = (Exn StoreError, w')
  ∧ contacts (db w') = []
  ∧ trace w' = [DbWrite Contacts].
Proof.
apply (contact_store_failure_escapes (P:=Reference.platform) Reference.cfg
         (Reference.request PostContact None
            [("name", "A"); ("email", "a@b.com"); ("message", "hi")])
         (set_env (Reference.troubled 0 [true]) Reference.world0)
         "A" "a@b.com" "hi" []).
- reflexivity.
- reflexivity.
- discriminate.
- reflexivity.
- discriminate.
- reflexivity.
- discriminate.
- reflexivity.
Defined.

Lemma delete_news_store_failure_witness :
∃ w',
  app (P:=Reference.platform) Reference.cfg
    (Reference.as_admin DeleteNews [] None)
    (set_env (Reference.troubled 9000 [false; true]) Reference.with_harvest)
  = (Val (json 500 (Message "Error deleting news")), w')
  ∧ news (db w') = [Reference.harvest]
  ∧ "public/uploads/5000-maize.png" ∉ disk w'.
Proof.
destruct (delete_news_store_failure (P:=Reference.platform) Reference.cfg
            (Reference.as_admin DeleteNews [] None)
            (set_env (Reference.troubled 9000 [false; true]) Reference.with_harvest))
  as [_ Hpartial].
- reflexivity.
- apply session_admin_request; [reflexivity|by vm_compute].
- destruct (Hpartial [] Reference.harvest eq_refl eq_refl)
    as (w' & Happ & Hnews & Himage).
  exists w'. split; [exact Happ|]. split; [exact Hnews|].
  apply (Himage "/uploads/5000-maize.png"); [reflexivity|discriminate].
Defined.

Lemma bearer_scheme_not_checked_witness :
carries (Reference.request GetUser (Some "Basic abc.def trailing words") []) "abc.def"
∧ JS.truthy (bearer (authorization (Reference.request GetUser (Some "abc.def") [])))
  = false.
Proof.
split.
- apply (bearer_scheme_not_checked
           (Reference.request GetUser (Some "Basic abc.def trailing words") [])
           "Basic" "abc.def" " trailing words"); try reflexivity.
  + discriminate.
  + right. by eexists.
- apply (bearer_scheme_not_checked
           (Reference.request GetUser (Some "abc.def") [])
           "Bearer" "abc.def" ""); try reflexivity.
  + discriminate.
  + by left.
Defined.

Lemma default_secret_admits_forged_admin_witness :
app (P:=Reference.platform) Reference.cfg
  (Reference.request GetMembers
     (Some ("Bearer " ++ Reference.sign 99 "admin" "your_jwt_secret_key" 86400 0)) [])
  (Reference.with_members [Reference.amina; Reference.bola])
= (Val (json 200 (MembersBody [Reference.amina; Reference.bola])),
   log (DbRead Members) (Reference.with_members [Reference.amina; Reference.bola])).
Proof.
destruct (default_secret_admits_forged_admin (P:=Reference.platform)
            (L:=reference_laws) Reference.cfg
            (Reference.request GetMembers
               (Some ("Bearer "
                      ++ Reference.sign 99 "admin" "your_jwt_secret_key" 86400 0)) [])
            (Reference.with_members [Reference.amina; Reference.bola])
            99%nat 86400 0) as (_ & _ & _ & Hlist).
- reflexivity.
- split; [vm_compute; reflexivity|discriminate].
- by vm_compute.
- by apply Hlist.
Defined.

Lemma login_token_opens_profile_witness :
∃ email role w',
  serve (P:=Reference.platform) Reference.cfg (Reference.calm 60000)
    (Reference.request GetUser (Some ("Bearer " ++ Reference.alice_token)) [])
    (run (P:=Reference.platform) Reference.cfg
       [(Reference.calm 7000, Reference.request GetNews None [])]
       (log (DbRead Users) (set_env (Reference.calm 6000) Reference.registered))).2
  = (Val (json 200 (UserBody (Some (0%nat, email, role)))), w').
Proof.
destruct (login_token_opens_profile (P:=Reference.platform) (L:=reference_laws)
            Reference.cfg
            (Reference.request PostLogin None Reference.alice)
            (set_env (Reference.calm 6000) Reference.registered)
            (log (DbRead Users) (set_env (Reference.calm 6000) Reference.registered))
            Reference.alice_token
            [(Reference.calm 7000, Reference.request GetNews None [])]
            (Reference.calm 60000)
            (Reference.request GetUser (Some ("Bearer " ++ Reference.alice_token)) []))
  as (u & email & role & w' & Hu & Hserve).
- reflexivity.
- vm_compute. reflexivity.
- reflexivity.
- by vm_compute.
- reflexivity.
- split; [vm_compute; reflexivity|discriminate].
- exists email, role, w'. vm_compute in Hu. injection Hu as <-. exact Hserve.
Defined.

Lemma list_members_matches_spec_witness :
app (P:=Reference.platform) Reference.cfg
  (mkHttp GetMembers (Reference.session "admin") ∅ (Some "ADE") 0 None)
  (Reference.with_members [Reference.bola])
= (Val (json 200 (MembersBody [Reference.bola])),
   log (DbRead Members) (Reference.with_members [Reference.bola])).
Proof.
rewrite (list_members_matches_spec (P:=Reference.platform) Reference.cfg).
- reflexivity.
- reflexivity.
- apply session_admin_request; [reflexivity|by vm_compute].
- reflexivity.
- repeat constructor.
Defined.

Lemma stored_members_satisfy_schema_witness :
Forall schema_valid
  (members (db (run (P:=Reference.platform) Reference.cfg
                  [(Reference.calm 5000,
                    Reference.as_admin PostMembers Reference.member_form
                      (Some [Reference.png "passportPhotos" "me.png" 2048]))]
                  Reference.world0).2)).
Proof.
apply (stored_members_satisfy_schema (P:=Reference.platform) Reference.cfg).
constructor.
Defined.

Lemma created_member_photos_on_disk_witness :
∃ m w',
  app (P:=Reference.platform) Reference.cfg
    (Reference.as_admin PostMembers Reference.member_form
       (Some [Reference.png "passportPhotos" "me.png" 2048]))
    Reference.world0
  = (Val (json 201 (MemberBody m)), w')
  ∧ Member.passportPhotos m = ["/uploads/0-me.png"]
  ∧ "public/uploads/0-me.png" ∈ disk w'.
Proof.
destruct (app (P:=Reference.platform) Reference.cfg
            (Reference.as_admin PostMembers Reference.member_form
               (Some [Reference.png "passportPhotos" "me.png" 2048]))
            Reference.world0) as [r w'] eqn:Happ.
assert (∃ m, r = Val (json 201 (MemberBody m))
             ∧ Member.passportPhotos m = ["/uploads/0-me.png"]) as (m & -> & Hphotos).
{ vm_compute in Happ. injection Happ as <- _. by eexists. }
exists m, w'. split; [reflexivity|]. split; [exact Hphotos|].
destruct (created_member_photos_on_disk (P:=Reference.platform) Reference.cfg
            (Reference.as_admin PostMembers Reference.member_form
               (Some [Reference.png "passportPhotos" "me.png" 2048]))
            Reference.world0 m w') as (_ & _ & Hdisk).
- reflexivity.
- apply session_admin_request; [reflexivity|by vm_compute].
- repeat constructor. by vm_compute.
- exact Happ.
- apply (Hdisk "/uploads/0-me.png"). rewrite Hphotos. constructor.
Defined.
